(** * bench: query and import-data generators of the benchmark tool

    A shallow embedding of [bench/import.go] and [bench/query.go]:
    the CSV dataset generator, the random query-tree generator, the pql
    call constructors and the [Init]/[Run] methods of the runners. *)

From Stdlib Require Import ZArith Lia.
From stdpp Require Import base gmap strings list fin_maps pretty sorting.

Local Open Scope Z_scope.

(** ** Machine integers

    Go's [int64] (and [int], 64 bits wide on the platforms the tool runs
    on) is a [Z] kept in range by [wrap64]; [uint64] is kept in range by
    [wrapU64].  The conversions [int64(x)] and [uint64(x)] are the two
    wraps. *)

Definition wrap64 (z : Z) : Z := (z + 2^63) mod 2^64 - 2^63.
Definition wrapU64 (z : Z) : Z := z mod 2^64.

Definition add64 (a b : Z) : Z := wrap64 (a + b).
Definition sub64 (a b : Z) : Z := wrap64 (a - b).
Definition mul64 (a b : Z) : Z := wrap64 (a * b).

Definition in_int64 (z : Z) : Prop := - 2^63 <= z < 2^63.
Definition in_uint64 (z : Z) : Prop := 0 <= z < 2^64.

(** ** Panics and state

    A computation runs on a state and either returns or panics; the state
    reached is kept in both cases, since what was written before a panic
    stays written. *)

Inductive Res (A : Type) : Type :=
| Ok (a : A)
| Panic (msg : string).
Arguments Ok {A} a.
Arguments Panic {A} msg.

Definition M (St A : Type) : Type := St -> Res A * St.

Definition ret {St A} (a : A) : M St A := fun s => (Ok a, s).

Definition bind {St A B} (m : M St A) (f : A -> M St B) : M St B :=
  fun s => match m s with
           | (Ok a, s') => f a s'
           | (Panic e, s') => (Panic e, s')
           end.

Definition panic {St A} (msg : string) : M St A := fun s => (Panic msg, s).

Definition modify {St} (f : St -> St) : M St unit := fun s => (Ok tt, f s).

Definition gets {St A} (f : St -> A) : M St A := fun s => (Ok (f s), s).

(** Runs a computation on a component of the state. *)
Definition zoom {St T A} (get : St -> T) (set : T -> St -> St) (m : M T A)
  : M St A :=
  fun s => let '(r, t) := m (get s) in (r, set t s).

Notation "'let*' x ':=' m 'in' k" := (bind m (fun x => k))
  (at level 10, x name, m at level 100, k at level 200, only parsing).

(** [for i := lo; i < lo + k; i++ { a = body i a }] with the loop-carried
    variables in [a]. *)
Fixpoint for_loop {St A} (k : nat) (i : Z) (body : Z -> A -> M St A) (a : A)
  : M St A :=
  match k with
  | O => ret a
  | S k' => let* a' := body i a in for_loop k' (i + 1) body a'
  end.

(** ** Slices *)

(** The runtime makes no slice longer than its allocation limit.  Every
    slice the program makes has 8-byte elements ([int], [int64] and
    pointers), so one limit serves all of them: [maxSliceLen], the
    greatest length for which [make] gets its memory.  It is at most
    [maxAlloc / 8], 2^45 where [maxAlloc] is 2^48 bytes, and it is taken
    to be at least 2^16 elements. *)
Class Runtime := {
  maxSliceLen : Z;
  maxSliceLen_lower : 2^16 <= maxSliceLen;
  maxSliceLen_upper : maxSliceLen <= 2^45
}.

(** [make([]T, n)] with every element the zero value [z]; a negative
    length and a length above the limit panic. *)
Definition make_slice {rt : Runtime} {St A} (z : A) (n : Z) : M St (list A) :=
  if (n <? 0) || (maxSliceLen <? n) then panic "makeslice: len out of range"
  else ret (replicate (Z.to_nat n) z).

(** [l[i]] *)
Definition index {St A} (l : list A) (i : Z) : M St A :=
  if i <? 0 then panic "index out of range"
  else match l !! Z.to_nat i with
       | Some x => ret x
       | None => panic "index out of range"
       end.

(** [l[i] = x] *)
Definition set_index {St A} (l : list A) (i : Z) (x : A) : M St (list A) :=
  if (i <? 0) || (Z.of_nat (length l) <=? i) then panic "index out of range"
  else ret (<[Z.to_nat i := x]> l).

(** [l[:n]] *)
Definition slice_to {St A} (l : list A) (n : Z) : M St (list A) :=
  if (n <? 0) || (Z.of_nat (length l) <? n)
  then panic "slice bounds out of range"
  else ret (take (Z.to_nat n) l).

(** ** math/rand

    The generator is Go's standard library.  A source is any state type
    with a seeding function and a bounded draw: [draw n s] is the number
    in [[0, n)] that the generator yields for a positive bound [n].
    [Int63n], [Intn] and [Perm] are the methods of [rand.Rand] the code
    calls, with the panics of the library. *)

Class Source (S : Type) := {
  NewSource : Z -> S;
  draw : Z -> S -> Z * S;
  draw_range : forall n s, 0 < n -> 0 <= (draw n s).1 < n
}.

(** A source that replays a tape of raw numbers, each reduced modulo the
    bound of the draw; an exhausted tape yields zeros.  A seed stands for
    a tape of six numbers. *)
Definition tape_draw (n : Z) (t : list Z) : Z * list Z :=
  match t with
  | [] => (0, [])
  | v :: t' => (v mod n, t')
  end.

#[export, refine] Instance tape_source : Source (list Z) := {|
  NewSource := fun seed =>
    [seed; 3 * seed + 1; 7 * seed + 5; seed + 11; 5 * seed + 3; seed + 2];
  draw := tape_draw
|}.
Proof.
  intros n [|v t] Hn; simpl; [lia|]. apply Z.mod_pos_bound; lia.
Defined.

Section Rand.
Context {S : Type} `{!Source S} {rt : Runtime}.

Definition Int63n (n : Z) : M S Z :=
  if n <=? 0 then panic "invalid argument to Int63n"
  else fun s => let '(v, s') := draw n s in (Ok v, s').

Definition Intn (n : Z) : M S Z :=
  if n <=? 0 then panic "invalid argument to Intn"
  else fun s => let '(v, s') := draw n s in (Ok v, s').

(** [Perm]: [m := make([]int, n)], then for each [i] the two
    assignments [m[i] = m[j]; m[j] = i] with [j := r.Intn(i + 1)]. *)
Definition Perm_body (i : Z) (m : list Z) : M S (list Z) :=
  let* j := Intn (i + 1) in
  let* mj := index m j in
  let* m1 := set_index m i mj in
  set_index m1 j i.

Definition Perm (n : Z) : M S (list Z) :=
  let* m := make_slice 0 n in
  for_loop (Z.to_nat n) 0 Perm_body m.

End Rand.

(** ** sort

    [sort.Sort] on an [Int64Slice], whose [Less] is [<] on [int64]: the
    slice is left in ascending order.  The ascending arrangement of a
    list of integers is unique, so any sorting function computes it. *)
Definition sort_Sort (s : list Z) : list Z := merge_sort Z.le s.

(** ** bench/import.go *)

(** The writer [w]: the strings written so far, one per [Fprintf]. *)
Definition Writer : Type := list string.

Definition newline : string := String (Ascii.ascii_of_nat 10) EmptyString.

(** [fmt.Sprintf("%d,%d\n", bitmapID, profileID)] *)
Definition row_line (bitmapID profileID : Z) : string :=
  pretty bitmapID +:+ "," +:+ pretty profileID +:+ newline.

Section Generate.
Context {S : Type} `{!Source S} {rt : Runtime}.

(** The state of one call of [GenerateImportCSV]: its generator [rng] and
    the writer [w]. *)
Record GenSt : Type := mkGenSt { rng : S; w : Writer }.

Definition on_rng {A} (m : M S A) : M GenSt A :=
  zoom rng (fun r st => mkGenSt r (w st)) m.

Definition Fprintf (line : string) : M GenSt unit :=
  modify (fun st => mkGenSt (rng st) (w st ++ [line])).

(** [profileIDs[j] = rng.Int63n(maxProfileID-baseProfileID) + baseProfileID] *)
Definition draw_profile (baseProfileID maxProfileID : Z) (j : Z)
    (profileIDs : list Z) : M GenSt (list Z) :=
  let* r := on_rng (Int63n (sub64 maxProfileID baseProfileID)) in
  set_index profileIDs j (add64 r baseProfileID).

(** [fmt.Fprintf(w, "%d,%d\n", bitmapID, profIDs[j])] *)
Definition write_row (bitmapID : Z) (profIDs : list Z) (j : Z) (_ : unit)
  : M GenSt unit :=
  let* p := index profIDs j in
  Fprintf (row_line bitmapID p).

(** The body of the loop over [i]; the loop carries [numrows] and the
    buffer [profileIDs].  [profIDs] is a slice of [profileIDs], so
    sorting it sorts the front of the buffer. *)
Definition group_body (baseBitmapID baseProfileID maxProfileID
    minBitsPerMap maxBitsPerMap : Z) (randomOrder : bool)
    (bitmapIDs : list Z) (i : Z) (acc : Z * list Z) : M GenSt (Z * list Z) :=
  let numrows := acc.1 in
  let profileIDs := acc.2 in
  let* bitmapID :=
    (if randomOrder then index bitmapIDs (sub64 i baseBitmapID) else ret i) in
  let* r := on_rng (Int63n (sub64 maxBitsPerMap minBitsPerMap)) in
  let numBitsToSet := add64 r minBitsPerMap in
  let numrows := add64 numrows numBitsToSet in
  let* profileIDs :=
    for_loop (Z.to_nat numBitsToSet) 0
      (draw_profile baseProfileID maxProfileID) profileIDs in
  let* profIDs := slice_to profileIDs numBitsToSet in
  let profIDs := if randomOrder then profIDs else sort_Sort profIDs in
  let profileIDs := profIDs ++ drop (Z.to_nat numBitsToSet) profileIDs in
  let* _ :=
    for_loop (Z.to_nat numBitsToSet) 0 (write_row bitmapID profIDs) tt in
  ret (numrows, profileIDs).

Definition generate (baseBitmapID maxBitmapID baseProfileID maxProfileID
    minBitsPerMap maxBitsPerMap : Z) (randomOrder : bool) : M GenSt Z :=
  let* bitmapIDs :=
    (if randomOrder then on_rng (Perm (sub64 maxBitmapID baseBitmapID))
     else ret []) in
  let* profileIDs := make_slice 0 maxBitsPerMap in
  let* acc :=
    for_loop (Z.to_nat (maxBitmapID - baseBitmapID)) baseBitmapID
      (group_body baseBitmapID baseProfileID maxProfileID
         minBitsPerMap maxBitsPerMap randomOrder bitmapIDs)
      (0, profileIDs) in
  ret acc.1.

(** [GenerateImportCSV(w, ...)]: the generator is seeded from [seed] and is
    local to the call; what the caller sees is the count and the writer. *)
Definition GenerateImportCSV (baseBitmapID maxBitmapID baseProfileID
    maxProfileID minBitsPerMap maxBitsPerMap seed : Z) (randomOrder : bool)
  : M Writer Z :=
  fun w0 =>
    let '(r, st) :=
      generate baseBitmapID maxBitmapID baseProfileID maxProfileID
        minBitsPerMap maxBitsPerMap randomOrder (mkGenSt (NewSource seed) w0) in
    (r, w st).

End Generate.
Arguments GenSt : clear implicits.

(** The [Import] benchmark.  The fields of the embedded
    [ctl.ImportCommand] that the code reads or writes ([Host], [Index],
    [Frame], [BufferSize], [Paths]) are fields of the record, as Go
    promotes them. *)
Record Import : Type := mkImport {
  Import_Name : string;
  BaseBitmapID : Z;
  MaxBitmapID : Z;
  BaseProfileID : Z;
  MaxProfileID : Z;
  RandomBitmapOrder : bool;
  MinBitsPerMap : Z;
  MaxBitsPerMap : Z;
  AgentControls : string;
  Seed : Z;
  numbits : Z;
  Host : string;
  Import_Index : string;
  Import_Frame : string;
  BufferSize : Z;
  Paths : list string
}.

Definition set_Name (v : string) (b : Import) : Import :=
  mkImport v (BaseBitmapID b) (MaxBitmapID b) (BaseProfileID b)
    (MaxProfileID b) (RandomBitmapOrder b) (MinBitsPerMap b) (MaxBitsPerMap b)
    (AgentControls b) (Seed b) (numbits b) (Host b) (Import_Index b)
    (Import_Frame b) (BufferSize b) (Paths b).

Definition set_Host (v : string) (b : Import) : Import :=
  mkImport (Import_Name b) (BaseBitmapID b) (MaxBitmapID b) (BaseProfileID b)
    (MaxProfileID b) (RandomBitmapOrder b) (MinBitsPerMap b) (MaxBitsPerMap b)
    (AgentControls b) (Seed b) (numbits b) v (Import_Index b)
    (Import_Frame b) (BufferSize b) (Paths b).

Definition set_Seed (v : Z) (b : Import) : Import :=
  mkImport (Import_Name b) (BaseBitmapID b) (MaxBitmapID b) (BaseProfileID b)
    (MaxProfileID b) (RandomBitmapOrder b) (MinBitsPerMap b) (MaxBitsPerMap b)
    (AgentControls b) v (numbits b) (Host b) (Import_Index b)
    (Import_Frame b) (BufferSize b) (Paths b).

Definition set_BitmapIDs (base max : Z) (b : Import) : Import :=
  mkImport (Import_Name b) base max (BaseProfileID b)
    (MaxProfileID b) (RandomBitmapOrder b) (MinBitsPerMap b) (MaxBitsPerMap b)
    (AgentControls b) (Seed b) (numbits b) (Host b) (Import_Index b)
    (Import_Frame b) (BufferSize b) (Paths b).

Definition set_ProfileIDs (base max : Z) (b : Import) : Import :=
  mkImport (Import_Name b) (BaseBitmapID b) (MaxBitmapID b) base
    max (RandomBitmapOrder b) (MinBitsPerMap b) (MaxBitsPerMap b)
    (AgentControls b) (Seed b) (numbits b) (Host b) (Import_Index b)
    (Import_Frame b) (BufferSize b) (Paths b).

Definition set_numbits (v : Z) (b : Import) : Import :=
  mkImport (Import_Name b) (BaseBitmapID b) (MaxBitmapID b) (BaseProfileID b)
    (MaxProfileID b) (RandomBitmapOrder b) (MinBitsPerMap b) (MaxBitsPerMap b)
    (AgentControls b) (Seed b) v (Host b) (Import_Index b)
    (Import_Frame b) (BufferSize b) (Paths b).

Definition set_Paths (v : list string) (b : Import) : Import :=
  mkImport (Import_Name b) (BaseBitmapID b) (MaxBitmapID b) (BaseProfileID b)
    (MaxProfileID b) (RandomBitmapOrder b) (MinBitsPerMap b) (MaxBitsPerMap b)
    (AgentControls b) (Seed b) (numbits b) (Host b) (Import_Index b)
    (Import_Frame b) (BufferSize b) v.

(** The file system [Init] works on: the files with what was written to
    each, and what the operating system answers to the next
    [ioutil.TempFile] (a name, or an error) and to [Close]. *)
Record FS : Type := mkFS {
  files : gmap string Writer;
  tempName : string;
  tempErr : option string;
  closeErr : option string
}.

(** The receiver [b] and the file system. *)
Record InitSt : Type := mkInitSt { imp : Import; fs : FS }.

Definition on_imp (f : Import -> Import) : M InitSt unit :=
  modify (fun st => mkInitSt (f (imp st)) (fs st)).

(** [ioutil.TempFile("", "")]: the new file's name, or the error. *)
Definition TempFile : M InitSt (string + string) :=
  fun st =>
    match tempErr (fs st) with
    | Some e => (Ok (inr e), st)
    | None =>
      let name := tempName (fs st) in
      (Ok (inl name),
       mkInitSt (imp st)
         (mkFS (<[name := []]> (files (fs st))) name None (closeErr (fs st))))
    end.

(** Runs a writing computation on the file [name]. *)
Definition on_file {A} (name : string) (m : M Writer A) : M InitSt A :=
  zoom (fun st => default [] (files (fs st) !! name))
       (fun wr st =>
          mkInitSt (imp st)
            (mkFS (<[name := wr]> (files (fs st))) (tempName (fs st))
               (tempErr (fs st)) (closeErr (fs st))))
       m.

(** [f.Close()] *)
Definition Close : M InitSt (option string) := gets (fun st => closeErr (fs st)).

Section Init.
Context {S : Type} `{!Source S} {rt : Runtime}.

(** [Init] from [ioutil.TempFile] on. *)
Definition Init_generate : M InitSt (option string) :=
  let* f := TempFile in
  match f with
  | inr err => ret (Some err)
  | inl name =>
    let* b := gets imp in
    let* num :=
      on_file name
        (GenerateImportCSV (BaseBitmapID b) (MaxBitmapID b) (BaseProfileID b)
           (MaxProfileID b) (MinBitsPerMap b) (MaxBitsPerMap b) (Seed b)
           (RandomBitmapOrder b)) in
    let* _ := on_imp (set_numbits num) in
    let* _ := on_imp (set_Paths [name]) in
    Close
  end.

(** [(b *Import) Init(hosts, agentNum)]; the result is the returned
    [error], [None] for [nil]. *)
Definition Import_Init (hosts : list string) (agentNum : Z)
  : M InitSt (option string) :=
  match hosts with
  | [] => ret (Some "Need at least one host")
  | host0 :: _ =>
    let* _ := on_imp (set_Name "import") in
    let* _ := on_imp (set_Host host0) in
    let* _ := on_imp (fun b => set_Seed (add64 (Seed b) agentNum) b) in
    let* b := gets imp in
    if decide (AgentControls b = "height") then
      let numBitmapIDs := sub64 (MaxBitmapID b) (BaseBitmapID b) in
      let base := add64 (BaseBitmapID b) (mul64 numBitmapIDs agentNum) in
      let* _ := on_imp (set_BitmapIDs base (add64 base numBitmapIDs)) in
      Init_generate
    else if decide (AgentControls b = "width") then
      let numProfileIDs := sub64 (MaxProfileID b) (BaseProfileID b) in
      let base := add64 (BaseProfileID b) (mul64 numProfileIDs agentNum) in
      let* _ := on_imp (set_ProfileIDs base (add64 base numProfileIDs)) in
      Init_generate
    else if decide (AgentControls b = "") then
      Init_generate
    else
      ret (Some ("agent-controls: '" +:+ AgentControls b
                 +:+ "' is not supported"))
  end.

End Init.

(** ** bench/query.go: pql calls *)

(** A value of an argument map ([interface{}]). *)
Inductive Value : Type :=
| VUint64 (n : Z)
| VInt64 (n : Z)
| VInt (n : Z)
| VString (s : string)
| VUint64s (l : list Z).

(** Go maps are references: an argument map is a location of the heap,
    or [nil]. *)
Definition loc : Type := positive.
Abbreviation Heap := (gmap loc (gmap string Value)).

(** [pql.Call]; a [*pql.Call] is an [option Call], [None] for [nil]. *)
#[warnings="-register-all"]
Inductive Call : Type :=
| mkCall (Name : string) (Args : option loc) (Children : list (option Call)).

Definition Name (c : Call) : string := let '(mkCall n _ _) := c in n.
Definition Args (c : Call) : option loc := let '(mkCall _ a _) := c in a.
Definition Children (c : Call) : list (option Call) :=
  let '(mkCall _ _ ch) := c in ch.

(** The entries of a map; a [nil] map reads as empty. *)
Definition entries (h : Heap) (m : option loc) : gmap string Value :=
  match m with
  | None => ∅
  | Some l => default ∅ (h !! l)
  end.

(** [make(map[string]interface{})] and map literals. *)
Definition new_map (m : gmap string Value) : M Heap (option loc) :=
  fun h => let l := fresh (dom h) in (Ok (Some l), <[l := m]> h).

(** [m[k] = v] *)
Definition map_assign (m : option loc) (k : string) (v : Value)
  : M Heap unit :=
  match m with
  | None => panic "assignment to entry in nil map"
  | Some l => modify (fun h => <[l := <[k := v]> (entries h m)]> h)
  end.

(** [for _, x := range l { body x }] *)
Fixpoint for_each {St A} (l : list A) (body : A -> M St unit) : M St unit :=
  match l with
  | [] => ret tt
  | x :: l' => let* _ := body x in for_each l' body
  end.

(** [copyArgs] returns a shallow copy of [m]. *)
Definition copyArgs (m : option loc) : M Heap (option loc) :=
  let* other := new_map ∅ in
  let* kvs := gets (fun h => map_to_list (entries h m)) in
  let* _ := for_each kvs (fun kv => map_assign other kv.1 kv.2) in
  ret other.

Definition SetRowAttrs (id : Z) (frame : string) (attrs : option loc)
  : M Heap (option Call) :=
  let* args := copyArgs attrs in
  let* _ := map_assign args "id" (VUint64 id) in
  let* _ := map_assign args "columnID" (VString frame) in
  ret (Some (mkCall "SetRowAttrs" args [])).

Definition SetColumnAttrs (id : Z) (attrs : option loc)
  : M Heap (option Call) :=
  let* args := copyArgs attrs in
  let* _ := map_assign args "id" (VUint64 id) in
  ret (Some (mkCall "SetColumnAttrs" args [])).

Definition Difference (bms : list (option Call)) : option Call :=
  Some (mkCall "Difference" None bms).

Definition Intersect (bms : list (option Call)) : option Call :=
  Some (mkCall "Intersect" None bms).

Definition Union (bms : list (option Call)) : option Call :=
  Some (mkCall "Union" None bms).

Definition Bitmap (id : Z) (frame : string) : M Heap (option Call) :=
  let* args := new_map {[ "rowID" := VUint64 id; "frame" := VString frame ]} in
  ret (Some (mkCall "Bitmap" args [])).

(** ** bench/query.go: the query generator *)

Section QueryGenerator.
Context {S : Type} `{!Source S} {rt : Runtime}.

Record QueryGenerator : Type := mkQueryGenerator {
  IDToFrameFn : Z -> string;
  R : S;
  Frames : list string
}.

Definition NewQueryGenerator (seed : Z) : QueryGenerator :=
  mkQueryGenerator (fun _ => "fbench") (NewSource seed) ["fbench"].

(** The receiver [q] and the heap the calls are allocated in. *)
Record GenWorld : Type := mkGenWorld { gen : QueryGenerator; heap : Heap }.

Definition on_R {A} (m : M S A) : M GenWorld A :=
  zoom (fun st => R (gen st))
       (fun r st =>
          mkGenWorld
            (mkQueryGenerator (IDToFrameFn (gen st)) r (Frames (gen st)))
            (heap st))
       m.

Definition on_heap {A} (m : M Heap A) : M GenWorld A :=
  zoom heap (fun h st => mkGenWorld (gen st) h) m.

(** The branch [depth <= 1] of [RandomBitmapCall]. *)
Definition RandomBitmapCall_leaf (idmin idmax : Z)
  : M GenWorld (option Call) :=
  let* r := on_R (Int63n (sub64 (wrap64 idmax) (wrap64 idmin))) in
  let rowID := add64 r (wrap64 idmin) in
  let* frame := gets (fun st => IDToFrameFn (gen st) (wrapU64 rowID)) in
  on_heap (Bitmap (wrapU64 rowID) frame).

(** [RandomBitmapCall] by recursion on how far [depth] is above 1: [d] is
    [depth - 1], 0 when [depth <= 1].  The call
    [q.RandomBitmapCall(1, 0, idmin, idmax)] of the branch [call == 0]
    takes the branch [depth <= 1]. *)
Fixpoint RandomBitmapCall_from (d : nat) (maxargs idmin idmax : Z)
  : M GenWorld (option Call) :=
  match d with
  | O => RandomBitmapCall_leaf idmin idmax
  | Datatypes.S d' =>
    let* call := on_R (Intn 4) in
    if call =? 0 then RandomBitmapCall_leaf idmin idmax
    else
      let* numargs :=
        (if maxargs <=? 2 then ret 2
         else let* r := on_R (Intn (maxargs - 2)) in ret (r + 2)) in
      let* calls := make_slice None numargs in
      let* calls :=
        for_loop (Z.to_nat numargs) 0
          (fun i calls =>
             let* c := RandomBitmapCall_from d' maxargs idmin idmax in
             set_index calls i c)
          calls in
      if call =? 1 then ret (Difference calls)
      else if call =? 2 then ret (Intersect calls)
      else if call =? 3 then ret (Union calls)
      else ret None
  end.

Definition RandomBitmapCall (depth maxargs idmin idmax : Z)
  : M GenWorld (option Call) :=
  RandomBitmapCall_from (Z.to_nat (depth - 1)) maxargs idmin idmax.

End QueryGenerator.
Arguments QueryGenerator : clear implicits.
Arguments GenWorld : clear implicits.

(** ** bench/query.go: the runners *)

Definition Response : Type := string.

(** What the client answers to one [ExecuteQuery]: the response, the
    error, and the time the call took. *)
Record Reply : Type := mkReply {
  reply_res : option Response;
  reply_err : option string;
  reply_elapsed : Z
}.

(** Modelled from the spec: [HasClient] and its [ExecuteQuery] are
    declared outside the two source files.  The client is the query
    execution collaborator, which takes an index name and a serialized
    query and returns a response and an error; here its answer to the
    [n]-th call it receives is [exec n index query]. *)
Record Client : Type := mkClient {
  exec : nat -> string -> string -> Reply
}.

(** Modelled from the spec: [Result], [NewResult] and [Add] are declared
    outside the two source files.  A result is the accumulated list of
    (duration, response-or-nil) pairs plus an optional terminal error,
    and [Add] appends one pair. *)
Record Result : Type := mkResult {
  measurements : list (Z * option Response);
  err : option string
}.

Definition NewResult : Result := mkResult [] None.

Definition Result_Add (d : Z) (res : option Response) (r : Result) : Result :=
  mkResult (measurements r ++ [(d, res)]) (err r).

Definition set_err (e : string) (r : Result) : Result :=
  mkResult (measurements r) (Some e).

(** What a run works on: the number of calls the client has received, the
    clock, what was written to [os.Stderr], and the heap. *)
Record RunSt : Type := mkRunSt {
  calls : nat;
  now : Z;
  stderr : list (Result * Z * option Response);
  run_heap : Heap
}.

Definition time_Now : M RunSt Z := gets now.

Definition time_Since (start : Z) : M RunSt Z := gets (fun st => now st - start).

Definition ExecuteQuery (c : Client) (index query : string)
  : M RunSt (option Response * option string) :=
  fun st =>
    let r := exec c (calls st) index query in
    (Ok (reply_res r, reply_err r),
     mkRunSt (Datatypes.S (calls st)) (now st + reply_elapsed r) (stderr st)
       (run_heap st)).

(** [fmt.Fprintf(os.Stderr, "results obj: %v, start time: %v, res: %v", ...)];
    the three values printed are kept unformatted. *)
Definition log_stderr (results : Result) (start : Z) (res : option Response)
  : M RunSt unit :=
  modify (fun st =>
            mkRunSt (calls st) (now st) (stderr st ++ [(results, start, res)])
              (run_heap st)).

Definition on_run_heap {A} (m : M Heap A) : M RunSt A :=
  zoom run_heap (fun h st => mkRunSt (calls st) (now st) (stderr st) h) m.

Record Query : Type := mkQuery {
  Query_client : option Client;
  Query_Name : string;
  Query_Query : string;
  Query_Index : string;
  Query_Iterations : Z
}.

(** The loop of [Query.Run] from iteration [n] on, [k] iterations left. *)
Fixpoint Query_Run_loop (b : Query) (c : Client) (k : nat) (n : Z)
    (results : Result) : M RunSt Result :=
  match k with
  | O => ret results
  | Datatypes.S k' =>
    let* start := time_Now in
    let* re := ExecuteQuery c (Query_Index b) (Query_Query b) in
    let* _ := log_stderr results start re.1 in
    let* d := time_Since start in
    let results := Result_Add d re.1 results in
    match re.2 with
    | Some e =>
      ret (set_err ("problem with query #" +:+ pretty n +:+ ": " +:+ e)
             results)
    | None => Query_Run_loop b c k' (n + 1) results
    end
  end.

Definition Query_Run (b : Query) : M RunSt Result :=
  let results := NewResult in
  match Query_client b with
  | None => ret (set_err "No client set for Query benchmark" results)
  | Some c =>
    Query_Run_loop b c (Z.to_nat (Query_Iterations b)) 0 results
  end.

Record BasicQuery : Type := mkBasicQuery {
  BasicQuery_client : option Client;
  BasicQuery_Name : string;
  BaseRowID : Z;
  BasicQuery_Iterations : Z;
  NumArgs : Z;
  BasicQuery_Query : string;
  BasicQuery_Index : string;
  BasicQuery_Frame : string
}.

(** [bms[i].Args["rowID"] = v]; [bms[i]] is a pointer and is
    dereferenced. *)
Definition set_rowID (bms : list (option Call)) (v : Z) (i : Z) (_ : unit)
  : M RunSt unit :=
  let* p := index bms i in
  match p with
  | None => panic "nil pointer dereference"
  | Some c => on_run_heap (map_assign (Args c) "rowID" (VInt64 v))
  end.

Section BasicQuery.
Context {rt : Runtime}.
(** [pql.Call.String], of the pilosa library: it reads the call and the
    argument maps it refers to. *)
Variable Call_String : Heap -> Call -> string.

(** The loop of [BasicQuery.Run] from iteration [n] on, [k] iterations
    left; [query.Children = bms] is the [mkCall] below. *)
Fixpoint BasicQuery_Run_loop (b : BasicQuery) (c : Client)
    (bms : list (option Call)) (k : nat) (n : Z) (results : Result)
  : M RunSt Result :=
  match k with
  | O => ret results
  | Datatypes.S k' =>
    let* _ :=
      for_loop (length bms) 0 (set_rowID bms (add64 (BaseRowID b) n)) tt in
    let query := mkCall (BasicQuery_Query b) None bms in
    let* start := time_Now in
    let* text := gets (fun st => Call_String (run_heap st) query) in
    let* re := ExecuteQuery c (BasicQuery_Index b) text in
    let* d := time_Since start in
    let results := Result_Add d None results in
    match re.2 with
    | Some e => ret (set_err e results)
    | None => BasicQuery_Run_loop b c bms k' (n + 1) results
    end
  end.

Definition BasicQuery_Run (b : BasicQuery) : M RunSt Result :=
  let results := NewResult in
  match BasicQuery_client b with
  | None => ret (set_err "No client set for BasicQuery" results)
  | Some c =>
    let* bms := make_slice None (NumArgs b) in
    let* bms :=
      for_loop (length bms) 0
        (fun i bms =>
           let* args :=
             on_run_heap
               (new_map {[ "frame" := VString (BasicQuery_Frame b) ]}) in
           set_index bms i (Some (mkCall "Bitmap" args [])))
        bms in
    BasicQuery_Run_loop b c bms (Z.to_nat (BasicQuery_Iterations b)) 0 results
  end.

End BasicQuery.

(** ** The rest of bench/import.go *)

(** [Int64Slice]: the three methods of [sort.Interface]. *)
Definition Int64Slice_Len (s : list Z) : Z := Z.of_nat (length s).

(** [s[i] < s[j]] *)
Definition Int64Slice_Less {St} (s : list Z) (i j : Z) : M St bool :=
  let* x := index s i in
  let* y := index s j in
  ret (x <? y).

(** [s[i], s[j] = s[j], s[i]]: both right-hand sides are read before
    either element is written. *)
Definition Int64Slice_Swap {St} (s : list Z) (i j : Z) : M St (list Z) :=
  let* y := index s j in
  let* x := index s i in
  let* s1 := set_index s i y in
  set_index s1 j x.

(** [(b *Import) Run]: the result map is local to the call and returned,
    so it is a value here.  [ImportCommand.Run], of the pilosa library, is
    the argument [command_Run]: it reads the receiver and the files and
    answers with an error or [None]. *)
Definition Import_Run (command_Run : Import -> FS -> option string)
    (st : InitSt) : gmap string Value :=
  let results : gmap string Value := ∅ in
  let results := <["numbits" := VInt (numbits (imp st))]> results in
  let results := <["index" := VString (Import_Index (imp st))]> results in
  match command_Run (imp st) (fs st) with
  | Some e => <["error" := VString e]> results
  | None => results
  end.

(** ** The rest of bench/query.go *)

Section Inits.
(** [HasClient.Init], declared outside the two source files: from the
    client held, the hosts and the agent number it gives the client to
    hold and an error. *)
Variable HasClient_Init :
  option Client -> list string -> Z -> option Client * option string.

(** [b.BaseRowID + int64(agentNum*b.Iterations)]: the product is an
    [int]. *)
Definition BasicQuery_Init (b : BasicQuery) (hosts : list string)
    (agentNum : Z) : BasicQuery * option string :=
  let base := add64 (BaseRowID b) (mul64 agentNum (BasicQuery_Iterations b)) in
  let r := HasClient_Init (BasicQuery_client b) hosts agentNum in
  (mkBasicQuery r.1 "basic-query" base (BasicQuery_Iterations b) (NumArgs b)
     (BasicQuery_Query b) (BasicQuery_Index b) (BasicQuery_Frame b),
   r.2).

End Inits.

Definition ClearBit (id : Z) (frame : string) (columnID : Z)
  : M Heap (option Call) :=
  let* args :=
    new_map {[ "id" := VUint64 id; "frame" := VString frame;
               "columnID" := VUint64 columnID ]} in
  ret (Some (mkCall "ClearBit" args [])).

Definition Column (id : Z) : M Heap (option Call) :=
  let* args := new_map {[ "id" := VUint64 id ]} in
  ret (Some (mkCall "Column" args [])).

Definition SetBit (id : Z) (frame : string) (columnID : Z)
  : M Heap (option Call) :=
  let* args :=
    new_map {[ "id" := VUint64 id; "frame" := VString frame;
               "columnID" := VUint64 columnID ]} in
  ret (Some (mkCall "SetBit" args [])).

Section RandomQueries.
Context {S : Type} `{!Source S} {rt : Runtime}.

(** [RandomTopN]: the two draws, then the node; the argument map is built
    before the child is generated, in the order of the fields of the
    literal. *)
Definition RandomTopN (maxN depth maxargs idmin idmax : Z)
  : M (GenWorld S) (option Call) :=
  let* frames := gets (fun st => Frames (gen st)) in
  let* frameIdx := on_R (Intn (Z.of_nat (length frames))) in
  let* frame := index frames frameIdx in
  let* r := on_R (Intn (sub64 maxN 1)) in
  let n := wrapU64 (add64 r 1) in
  let* args :=
    on_heap (new_map {[ "frame" := VString frame; "n" := VUint64 n ]}) in
  let* child := RandomBitmapCall depth maxargs idmin idmax in
  ret (Some (mkCall "TopN" args [child])).

Definition Random (maxN depth maxargs idmin idmax : Z)
  : M (GenWorld S) (option Call) :=
  let* val := on_R (Intn 5) in
  if val =? 0 then RandomTopN maxN depth maxargs idmin idmax
  else RandomBitmapCall depth maxargs idmin idmax.

End RandomQueries.

(** The runtime of the 64-bit platforms, where [maxAlloc] is 2^48
    bytes. *)
#[export, refine] Instance runtime64 : Runtime := {| maxSliceLen := 2^45 |}.
Proof. all: lia. Defined.

(** ** Outcomes

    [triple m s Q E]: run from [s], [m] returns a value and a state that
    satisfy [Q], or panics in a state that satisfies [E]. *)
Definition triple {St A} (m : M St A) (s : St) (Q : A -> St -> Prop)
    (E : St -> Prop) : Prop :=
  match m s with
  | (Ok a, s') => Q a s'
  | (Panic _, s') => E s'
  end.

(** [m] returns from [s] without a panic, with [Q]. *)
Definition returns {St A} (m : M St A) (s : St) (Q : A -> St -> Prop) : Prop :=
  triple m s Q (fun _ => False).

(** ** What a run of the generator writes

    A group is a bitmap id with the profile ids written under it, in the
    order written. *)
Definition group_rows (g : Z * list Z) : list string :=
  map (row_line g.1) g.2.

Definition rows_of (groups : list (Z * list Z)) : list string :=
  flat_map group_rows groups.

(** The bitmap id of iteration [i] of the loop. *)
Definition group_id (randomOrder : bool) (bitmapIDs : list Z)
    (baseBitmapID i : Z) : option Z :=
  if randomOrder then
    if sub64 i baseBitmapID <? 0 then None
    else bitmapIDs !! Z.to_nat (sub64 i baseBitmapID)
  else Some i.

(** [v] is [rng.Int63n(hi-lo) + lo] for some draw. *)
Definition drawn (lo hi v : Z) : Prop :=
  exists r, 0 <= r < sub64 hi lo /\ v = add64 r lo.

(** What iteration [i] writes. *)
Definition group_ok (baseBitmapID baseProfileID maxProfileID minBitsPerMap
    maxBitsPerMap : Z) (randomOrder : bool) (bitmapIDs : list Z)
    (i : Z) (g : Z * list Z) : Prop :=
  group_id randomOrder bitmapIDs baseBitmapID i = Some g.1 /\
  drawn minBitsPerMap maxBitsPerMap (Z.of_nat (length g.2)) /\
  Forall (drawn baseProfileID maxProfileID) g.2 /\
  (randomOrder = false -> Sorted Z.le g.2).

(** When iteration [i] panics, [len] being the length of the buffer
    [profileIDs]: the index into [bitmapIDs] is out of range, or a bound
    passed to [Int63n] is not positive, or the number of bits drawn does
    not fit the buffer. *)
Definition group_panics (baseBitmapID baseProfileID maxProfileID
    minBitsPerMap maxBitsPerMap : Z) (randomOrder : bool)
    (bitmapIDs : list Z) (len : nat) (i : Z) : Prop :=
  group_id randomOrder bitmapIDs baseBitmapID i = None \/
  sub64 maxBitsPerMap minBitsPerMap <= 0 \/
  exists nb, drawn minBitsPerMap maxBitsPerMap nb /\
    (nb < 0 \/ Z.of_nat len < nb \/
     (0 < nb /\ sub64 maxProfileID baseProfileID <= 0)).

(** The groups of the iterations [baseBitmapID], [baseBitmapID + 1], ... *)
Definition trace_ok (baseBitmapID baseProfileID maxProfileID minBitsPerMap
    maxBitsPerMap : Z) (randomOrder : bool) (bitmapIDs : list Z)
    (groups : list (Z * list Z)) : Prop :=
  Forall2
    (group_ok baseBitmapID baseProfileID maxProfileID minBitsPerMap
       maxBitsPerMap randomOrder bitmapIDs)
    (seqZ baseBitmapID (Z.of_nat (length groups))) groups.

(** Ranges on which the generator does not panic: a non-empty range of
    bit counts that starts at 0 or above and whose end is a length that
    [make] accepts, a non-empty range of profile ids whose width is an
    [int64], and under [randomOrder] a range of bitmap ids that is not
    reversed and whose width is a length that [make] accepts. *)
Definition valid_ranges {rt : Runtime} (baseBitmapID maxBitmapID baseProfileID
    maxProfileID minBitsPerMap maxBitsPerMap : Z) (randomOrder : bool) : Prop :=
  0 <= minBitsPerMap < maxBitsPerMap /\ maxBitsPerMap <= maxSliceLen /\
  in_int64 baseProfileID /\ in_int64 maxProfileID /\
  0 < maxProfileID - baseProfileID < 2^63 /\
  (randomOrder = true -> 0 <= maxBitmapID - baseBitmapID <= maxSliceLen).

(** What [GenerateImportCSV] has written and returned, in terms of the
    groups of its iterations. *)
Definition generated (baseBitmapID maxBitmapID baseProfileID maxProfileID
    minBitsPerMap maxBitsPerMap : Z) (randomOrder : bool)
    (bitmapIDs : list Z) (groups : list (Z * list Z))
    (w0 : Writer) (n : Z) (w' : Writer) : Prop :=
  (randomOrder = true ->
   bitmapIDs ≡ₚ seqZ 0 (sub64 maxBitmapID baseBitmapID)) /\
  trace_ok baseBitmapID baseProfileID maxProfileID minBitsPerMap
    maxBitsPerMap randomOrder bitmapIDs groups /\
  Z.of_nat (length groups) = Z.max 0 (maxBitmapID - baseBitmapID) /\
  w' = w0 ++ rows_of groups /\
  n = wrap64 (Z.of_nat (length (rows_of groups))).

(** The client answers its first [j] calls without an error and the next
    one with an error. *)
Definition fails_first_at (c : Client) (j : nat) : Prop :=
  (forall i index query, (i < j)%nat ->
     reply_err (exec c i index query) = None) /\
  (forall index query, is_Some (reply_err (exec c j index query))).

(** A client that answers two calls and fails from the third on. *)
Definition third_call_fails : Client :=
  mkClient (fun n _ _ =>
              if (n <? 2)%nat then mkReply (Some "ok") None 5
              else mkReply None (Some "connection refused") 7).

(** A run starts with a client that has received no call. *)
Definition fresh_run : RunSt := mkRunSt 0 0 [] ∅.

(** Every pointer of [bms] points to a call whose argument map is
    allocated. *)
Definition has_args (p : option Call) : Prop :=
  exists c l, p = Some c /\ Args c = Some l.

(** ** The shape of generated calls *)

Definition is_set_op (name : string) : bool :=
  String.eqb name "Difference" || String.eqb name "Intersect"
  || String.eqb name "Union".

(** The child counts that [RandomBitmapCall] gives a set operation: 2
    when [maxargs <= 2], otherwise [Intn(maxargs-2) + 2], a number from 2
    to [maxargs - 1]. *)
Definition arity_ok (maxargs k : Z) : bool :=
  if maxargs <=? 2 then k =? 2 else (2 <=? k) && (k <? maxargs).

(** Every pointer in the tree is non-nil and every set operation in it
    has a child count allowed by [arity_ok]. *)
Fixpoint fanout_ok (maxargs : Z) (c : Call) : bool :=
  match c with
  | mkCall name _ children =>
    (negb (is_set_op name) || arity_ok maxargs (Z.of_nat (length children)))
    && forallb (fun p => match p with
                         | Some c' => fanout_ok maxargs c'
                         | None => false
                         end) children
  end.

Definition child_ok (maxargs : Z) (p : option Call) : Prop :=
  exists c, p = Some c /\ fanout_ok maxargs c = true.

(** The bound that [RandomBitmapCall] passes to [Int63n]. *)
Definition id_width (idmin idmax : Z) : Z :=
  sub64 (wrap64 idmax) (wrap64 idmin).

(** [m] only appends to the writer: run on a writer that already holds
    [w0], it returns the same and writes the same after [w0]. *)
Definition writer_framed (S : Type) {A} (m : M (GenSt S) A) : Prop :=
  forall r wr w0,
    m (mkGenSt r (w0 ++ wr)) =
    let '(a, st) := m (mkGenSt r wr) in (a, mkGenSt (rng st) (w0 ++ w st)).

(** Only the heap differs between two states of a run. *)
Definition same_client_state (st st' : RunSt) : Prop :=
  calls st' = calls st /\ now st' = now st /\ stderr st' = stderr st.

(** Two receivers that differ at most in [numbits] and [Paths], the two
    fields that generating the file sets. *)
Definition same_config (b b' : Import) : Prop :=
  Import_Name b' = Import_Name b /\
  BaseBitmapID b' = BaseBitmapID b /\ MaxBitmapID b' = MaxBitmapID b /\
  BaseProfileID b' = BaseProfileID b /\ MaxProfileID b' = MaxProfileID b /\
  RandomBitmapOrder b' = RandomBitmapOrder b /\
  MinBitsPerMap b' = MinBitsPerMap b /\ MaxBitsPerMap b' = MaxBitsPerMap b /\
  AgentControls b' = AgentControls b /\ Seed b' = Seed b /\
  Host b' = Host b /\ Import_Index b' = Import_Index b /\
  Import_Frame b' = Import_Frame b /\ BufferSize b' = BufferSize b.

(** The argument maps of the calls that the pointers of [bms] point
    to. *)
Definition arg_locs (bms : list (option Call)) : list loc :=
  omap (fun p : option Call => match p with
                               | Some c => Args c
                               | None => None
                               end) bms.

(** The measurement that [Query.Run] records for the call number [i]. *)
Definition measurement_of (c : Client) (b : Query) (i : nat)
  : Z * option Response :=
  let r := exec c i (Query_Index b) (Query_Query b) in
  (reply_elapsed r, reply_res r).

(** Every map of [h] is in [h'] as it is in [h]: from [h] to [h'] maps
    were allocated, none was changed. *)
Definition heap_extends (h h' : Heap) : Prop :=
  forall l, is_Some (h !! l) -> h' !! l = h !! l.

(** A bitmap query as [RandomBitmapCall] builds them, read in the heap
    [h]: a "Bitmap" leaf without children whose argument map holds a
    [rowID] in [[idmin, idmax)] and the frame that [frameOf] gives for it,
    or a Difference, Intersect or Union without arguments whose children
    are non-nil bitmap queries. *)
Fixpoint bitmap_tree (idmin idmax : Z) (frameOf : Z -> string) (h : Heap)
    (c : Call) : Prop :=
  match c with
  | mkCall name args children =>
    if String.eqb name "Bitmap" then
      children = [] /\
      exists l m r,
        args = Some l /\ h !! l = Some m /\
        m !! "rowID" = Some (VUint64 r) /\ idmin <= r < idmax /\
        m !! "frame" = Some (VString (frameOf r))
    else
      is_set_op name = true /\ args = None /\
      foldr (fun p acc =>
               match p with
               | Some c' => bitmap_tree idmin idmax frameOf h c'
               | None => False
               end /\ acc) True children
  end.

(** The number of levels of a tree. *)
Fixpoint call_height (c : Call) : nat :=
  match c with
  | mkCall _ _ children =>
    Datatypes.S
      (foldr (fun p acc =>
                Nat.max match p with
                        | Some c' => call_height c'
                        | None => O
                        end acc) O children)
  end.

(** The id ranges that [RandomBitmapCall] is meant for. *)
Definition valid_ids (idmin idmax : Z) : Prop :=
  in_uint64 idmin /\ in_uint64 idmax /\
  idmin < idmax /\ idmax - idmin < 2^63.

(** From [st] to [st'] the generator has only drawn numbers and
    allocated maps: the maps of [st] are unchanged, and so are the frames
    and the id-to-frame function. *)
Definition grows {S} (st st' : GenWorld S) : Prop :=
  heap_extends (heap st) (heap st') /\
  IDToFrameFn (gen st') = IDToFrameFn (gen st) /\
  Frames (gen st') = Frames (gen st).

(** What is known of a generated child once the generator is in the
    state [st]: it is not nil, has at most [k] levels, and on valid id
    ranges it is a bitmap query in the heap of [st] and in every heap
    that extends it. *)
Definition child_tree {S} (idmin idmax : Z) (frameOf : Z -> string)
    (k : nat) (st : GenWorld S) (p : option Call) : Prop :=
  exists c,
    p = Some c /\ (call_height c <= k)%nat /\
    (valid_ids idmin idmax ->
     forall h', heap_extends (heap st) h' ->
                bitmap_tree idmin idmax frameOf h' c).

(** * Properties *)

(** ** Machine integers *)

Lemma wrap64_id z : in_int64 z -> wrap64 z = z.
Proof.
  unfold in_int64, wrap64. intros Hz.
  rewrite Z.mod_small by lia. lia.
Qed.

Lemma wrap64_range z : in_int64 (wrap64 z).
Proof.
  unfold in_int64, wrap64.
  pose proof (Z.mod_pos_bound (z + 2^63) (2^64) ltac:(lia)). lia.
Qed.

Lemma wrapU64_wrap64 z : wrapU64 (wrap64 z) = wrapU64 z.
Proof.
  unfold wrapU64, wrap64.
  rewrite Zminus_mod_idemp_l. f_equal. lia.
Qed.

(** ** Rules for outcomes *)

Section Triples.
Context {St : Type} {rt : Runtime}.

Lemma triple_ret {A} (a : A) (s : St) Q E : Q a s -> triple (ret a) s Q E.
Proof. done. Qed.

Lemma triple_panic {A} msg (s : St) (Q : A -> St -> Prop) (E : St -> Prop) :
  E s -> triple (panic msg) s Q E.
Proof. done. Qed.

Lemma triple_bind {A B} (m : M St A) (f : A -> M St B) s Q E :
  triple m s (fun a s' => triple (f a) s' Q E) E <-> triple (bind m f) s Q E.
Proof. unfold triple, bind. by destruct (m s) as [[a|e] s']. Qed.

Lemma triple_bind_intro {A B} (m : M St A) (f : A -> M St B) s Q E :
  triple m s (fun a s' => triple (f a) s' Q E) E -> triple (bind m f) s Q E.
Proof. apply triple_bind. Qed.

Lemma triple_mono {A} (m : M St A) s (Q Q' : A -> St -> Prop) (E E' : St -> Prop) :
  (forall a s', Q a s' -> Q' a s') -> (forall s', E s' -> E' s') ->
  triple m s Q E -> triple m s Q' E'.
Proof. unfold triple. destruct (m s) as [[a|e] s']; auto. Qed.

Lemma triple_modify (f : St -> St) s (Q : unit -> St -> Prop) E :
  Q tt (f s) -> triple (modify f) s Q E.
Proof. done. Qed.

Lemma triple_gets {A} (f : St -> A) s Q E :
  Q (f s) s -> triple (gets f) s Q E.
Proof. done. Qed.

Lemma triple_zoom {T A} (get : St -> T) (set : T -> St -> St) (m : M T A)
    s Q E :
  triple m (get s) (fun a t => Q a (set t s)) (fun t => E (set t s)) <->
  triple (zoom get set m) s Q E.
Proof. unfold triple, zoom. by destruct (m (get s)) as [[a|e] t]. Qed.

Lemma triple_eq {A} (m : M St A) s Q E r s' :
  m s = (r, s') ->
  triple m s Q E ->
  match r with Ok a => Q a s' | Panic _ => E s' end.
Proof. unfold triple. by intros ->. Qed.

Lemma triple_for_loop {A} (I : Z -> A -> St -> Prop) (E : St -> Prop)
    (body : Z -> A -> M St A) k lo a s :
  I lo a s ->
  (forall j a s, lo <= j < lo + Z.of_nat k -> I j a s ->
                 triple (body j a) s (I (j + 1)) E) ->
  triple (for_loop k lo body a) s (I (lo + Z.of_nat k)) E.
Proof.
  revert lo a s. induction k as [|k IH]; intros lo a s HI Hbody.
  - simpl. apply triple_ret. by rewrite Z.add_0_r.
  - cbn [for_loop]. apply triple_bind.
    eapply triple_mono; [| |apply (Hbody lo); [lia|done]]; [|done].
    intros a' s' HI'. cbv beta.
    replace (lo + Z.of_nat (Datatypes.S k)) with ((lo + 1) + Z.of_nat k) by lia.
    apply IH; [done|]. intros j a'' s'' Hj. apply Hbody. lia.
Qed.

Lemma make_slice_run {A} (z : A) n (s : St) :
  0 <= n <= maxSliceLen ->
  make_slice z n s = (Ok (replicate (Z.to_nat n) z), s).
Proof.
  intros Hn. unfold make_slice.
  destruct (Z.ltb_spec n 0); [lia|].
  by destruct (Z.ltb_spec maxSliceLen n); [lia|].
Qed.

Lemma make_slice_panics {A} (z : A) n (s : St) :
  n < 0 \/ maxSliceLen < n ->
  make_slice z n s = (Panic "makeslice: len out of range", s).
Proof.
  intros Hn. unfold make_slice.
  destruct (Z.ltb_spec n 0); [done|].
  by destruct (Z.ltb_spec maxSliceLen n); [|lia].
Qed.

Lemma triple_make_slice {A} (z : A) n (s : St) Q E :
  0 <= n <= maxSliceLen -> Q (replicate (Z.to_nat n) z) s ->
  triple (make_slice z n) s Q E.
Proof. intros Hn HQ. unfold triple. by rewrite make_slice_run. Qed.

Lemma small_len n : n <= 2^16 -> n <= maxSliceLen.
Proof. pose proof maxSliceLen_lower. lia. Qed.

Lemma triple_index {A} (l : list A) i x (s : St) Q E :
  0 <= i -> l !! Z.to_nat i = Some x -> Q x s -> triple (index l i) s Q E.
Proof.
  intros Hi Hl HQ. unfold index.
  destruct (Z.ltb_spec i 0); [lia|]. rewrite Hl. by apply triple_ret.
Qed.

Lemma triple_set_index {A} (l : list A) i x (s : St) Q E :
  0 <= i < Z.of_nat (length l) -> Q (<[Z.to_nat i := x]> l) s ->
  triple (set_index l i x) s Q E.
Proof.
  intros Hi HQ. unfold set_index.
  destruct (Z.ltb_spec i 0); [lia|].
  destruct (Z.leb_spec (Z.of_nat (length l)) i); [lia|]. by apply triple_ret.
Qed.

Lemma triple_slice_to {A} (l : list A) n (s : St) Q E :
  0 <= n <= Z.of_nat (length l) -> Q (take (Z.to_nat n) l) s ->
  triple (slice_to l n) s Q E.
Proof.
  intros Hn HQ. unfold slice_to.
  destruct (Z.ltb_spec n 0); [lia|].
  destruct (Z.ltb_spec (Z.of_nat (length l)) n); [lia|]. by apply triple_ret.
Qed.

End Triples.

(** ** math/rand *)

Section RandFacts.
Context {S : Type} `{!Source S} {rt : Runtime}.

Lemma triple_Int63n n (s : S) Q E :
  0 < n ->
  (forall v s', 0 <= v < n -> Q v s') ->
  triple (Int63n n) s Q E.
Proof.
  intros Hn HQ. unfold Int63n, triple.
  destruct (Z.leb_spec n 0); [lia|].
  pose proof (draw_range n s Hn) as Hr.
  destruct (draw n s) as [v s']. by apply HQ.
Qed.

Lemma triple_Int63n_panic n (s : S) (Q : Z -> S -> Prop) (E : S -> Prop) :
  n <= 0 -> E s -> triple (Int63n n) s Q E.
Proof.
  intros Hn HE. unfold Int63n, triple.
  by destruct (Z.leb_spec n 0); [|lia].
Qed.

Lemma triple_Intn n (s : S) Q E :
  0 < n ->
  (forall v s', 0 <= v < n -> Q v s') ->
  triple (Intn n) s Q E.
Proof.
  intros Hn HQ. unfold Intn, triple.
  destruct (Z.leb_spec n 0); [lia|].
  pose proof (draw_range n s Hn) as Hr.
  destruct (draw n s) as [v s']. by apply HQ.
Qed.

End RandFacts.

(** *** [Perm] returns a permutation *)

Lemma insert_snoc_Permutation {A} (l : list A) j x y :
  l !! j = Some y -> <[j := x]> l ++ [y] ≡ₚ l ++ [x].
Proof.
  intros Hj.
  rewrite insert_take_drop by (by eapply lookup_lt_Some).
  rewrite <- (take_drop_middle l j y Hj) at 3.
  rewrite <- !app_assoc. simpl.
  apply Permutation_app_head.
  rewrite !(Permutation_app_comm _ [_]). simpl. apply perm_swap.
Qed.

Lemma Perm_step_Permutation (m : list Z) (i j : nat) x mj :
  (j <= i)%nat -> (i < length m)%nat -> m !! j = Some mj ->
  take (Datatypes.S i) (<[j := x]> (<[i := mj]> m)) ≡ₚ take i m ++ [x].
Proof.
  intros Hji Hi Hj.
  destruct (decide (j = i)) as [->|Hne].
  - rewrite list_insert_insert_eq.
    erewrite take_S_r by (by apply list_lookup_insert_eq).
    by rewrite take_insert_ge by lia.
  - erewrite take_S_r; last first.
    { rewrite list_lookup_insert_ne by done. by apply list_lookup_insert_eq. }
    rewrite take_insert_lt by lia. rewrite take_insert_ge by lia.
    apply insert_snoc_Permutation. rewrite lookup_take_lt by lia. done.
Qed.

Section PermFacts.
Context {S : Type} `{!Source S} {rt : Runtime}.

Lemma Perm_returns n (s : S) :
  0 <= n <= maxSliceLen ->
  returns (Perm n) s (fun m _ => m ≡ₚ seqZ 0 n).
Proof.
  intros Hn. unfold returns, Perm. apply triple_bind.
  apply triple_make_slice; [done|].
  eapply triple_mono; [| |
    apply (triple_for_loop
             (fun i (m : list Z) (_ : S) =>
                0 <= i <= n /\ length m = Z.to_nat n /\
                take (Z.to_nat i) m ≡ₚ seqZ 0 i)
             (fun _ => False))].
  - intros m s' (Hi & Hlen & Hp). cbv beta in *.
    rewrite Z2Nat.id in Hp by lia. simpl in Hp.
    rewrite take_ge in Hp by lia. done.
  - done.
  - split; [lia|]. split; [by rewrite length_replicate|].
    simpl. by rewrite seqZ_nil.
  - intros i m s' Hi (_ & Hlen & Hp). simpl in Hi.
    rewrite Z2Nat.id in Hi by lia.
    unfold Perm_body. apply triple_bind.
    apply triple_Intn; [lia|]. intros j s'' Hj.
    destruct (lookup_lt_is_Some_2 m (Z.to_nat j)) as [mj Hmj]; [lia|].
    apply triple_bind. eapply triple_index; [lia|done|].
    apply triple_bind. apply triple_set_index; [lia|].
    apply triple_set_index; [rewrite length_insert; lia|].
    split; [lia|]. split; [by rewrite !length_insert|].
    replace (Z.to_nat (i + 1)) with (Datatypes.S (Z.to_nat i)) by lia.
    rewrite Perm_step_Permutation by (done || lia).
    rewrite Hp. replace (i + 1) with (Z.of_nat (Datatypes.S (Z.to_nat i))) by lia.
    rewrite seqZ_S. rewrite Z2Nat.id by lia. done.
Qed.

End PermFacts.

(** ** Rules for operations that may panic *)

Section TriplesAny.
Context {St : Type} {rt : Runtime}.

Lemma triple_make_slice_any {A} (z : A) n (s : St) Q (E : St -> Prop) :
  (n < 0 \/ maxSliceLen < n -> E s) ->
  (0 <= n <= maxSliceLen -> Q (replicate (Z.to_nat n) z) s) ->
  triple (make_slice z n) s Q E.
Proof.
  intros HE HQ. unfold triple.
  destruct (decide (0 <= n <= maxSliceLen)) as [Hn|Hn].
  - rewrite make_slice_run by done. by apply HQ.
  - rewrite make_slice_panics by lia. apply HE. lia.
Qed.

Lemma triple_index_any {A} (l : list A) i (s : St) Q (E : St -> Prop) :
  (i < 0 \/ l !! Z.to_nat i = None -> E s) ->
  (forall x, 0 <= i -> l !! Z.to_nat i = Some x -> Q x s) ->
  triple (index l i) s Q E.
Proof.
  intros HE HQ. unfold index.
  destruct (Z.ltb_spec i 0); [apply HE; by left|].
  destruct (l !! Z.to_nat i) as [x|] eqn:Hl; [|apply HE; by right].
  apply triple_ret. by apply HQ.
Qed.

Lemma triple_set_index_any {A} (l : list A) i x (s : St) Q (E : St -> Prop) :
  (~ 0 <= i < Z.of_nat (length l) -> E s) ->
  (0 <= i < Z.of_nat (length l) -> Q (<[Z.to_nat i := x]> l) s) ->
  triple (set_index l i x) s Q E.
Proof.
  intros HE HQ. unfold set_index.
  destruct (Z.ltb_spec i 0); [apply HE; lia|].
  destruct (Z.leb_spec (Z.of_nat (length l)) i); [apply HE; lia|].
  apply triple_ret. apply HQ. lia.
Qed.

Lemma triple_slice_to_any {A} (l : list A) n (s : St) Q (E : St -> Prop) :
  (~ 0 <= n <= Z.of_nat (length l) -> E s) ->
  (0 <= n <= Z.of_nat (length l) -> Q (take (Z.to_nat n) l) s) ->
  triple (slice_to l n) s Q E.
Proof.
  intros HE HQ. unfold slice_to.
  destruct (Z.ltb_spec n 0); [apply HE; lia|].
  destruct (Z.ltb_spec (Z.of_nat (length l)) n); [apply HE; lia|].
  apply triple_ret. apply HQ. lia.
Qed.

End TriplesAny.

(** ** GenerateImportCSV *)

Lemma wrap64_add_l a b : wrap64 (wrap64 a + b) = wrap64 (a + b).
Proof.
  unfold wrap64. f_equal.
  replace ((a + 2^63) mod 2^64 - 2^63 + b + 2^63)
    with ((a + 2^63) mod 2^64 + b) by lia.
  rewrite Zplus_mod_idemp_l. f_equal. lia.
Qed.

Lemma rows_of_snoc groups g : rows_of (groups ++ [g]) = rows_of groups ++ group_rows g.
Proof. unfold rows_of. rewrite flat_map_app. simpl. by rewrite app_nil_r. Qed.

Section GenerateFacts.
Context {S : Type} `{!Source S} {rt : Runtime}.

Lemma triple_on_rng_Int63n n (st : GenSt S) Q (E : GenSt S -> Prop) :
  (n <= 0 -> E st) ->
  (forall v r', 0 <= v < n -> Q v (mkGenSt r' (w st))) ->
  triple (on_rng (Int63n n)) st Q E.
Proof.
  intros HE HQ. unfold on_rng. apply triple_zoom.
  destruct (Z.leb_spec n 0).
  - apply triple_Int63n_panic; [done|]. destruct st. by apply HE.
  - apply triple_Int63n; [done|]. intros v s' Hv. by apply HQ.
Qed.

Section Group.
Variables baseBitmapID baseProfileID maxProfileID : Z.
Variables minBitsPerMap maxBitsPerMap : Z.
Variable randomOrder : bool.
Variable bitmapIDs : list Z.

Lemma draw_profiles_triple k (profileIDs : list Z) (st : GenSt S) :
  triple
    (for_loop k 0 (draw_profile baseProfileID maxProfileID) profileIDs) st
    (fun p st' =>
       w st' = w st /\ length p = length profileIDs /\
       Forall (drawn baseProfileID maxProfileID) (take k p))
    (fun st' =>
       w st' = w st /\ (0 < k)%nat /\
       (sub64 maxProfileID baseProfileID <= 0 \/ (length profileIDs < k)%nat)).
Proof.
  eapply triple_mono; [| |
    apply (triple_for_loop
             (fun j (p : list Z) (st' : GenSt S) =>
                w st' = w st /\ length p = length profileIDs /\
                Forall (drawn baseProfileID maxProfileID) (take (Z.to_nat j) p))
             (fun st' =>
                w st' = w st /\ (0 < k)%nat /\
                (sub64 maxProfileID baseProfileID <= 0 \/
                 (length profileIDs < k)%nat)))].
  - intros p st' (Hw & Hlen & HF). by rewrite Z.add_0_l, Nat2Z.id in HF.
  - done.
  - simpl. auto.
  - intros j p st' Hj (Hw & Hlen & HF).
    unfold draw_profile. apply triple_bind.
    apply triple_on_rng_Int63n.
    { intros Hle. split; [done|]. split; [lia|]. by left. }
    intros v r' Hv.
    apply triple_set_index_any.
    { intros Hnot. simpl. split; [done|]. split; [lia|]. right. lia. }
    intros Hjl.
    split; [done|]. split; [by rewrite length_insert|].
    replace (Z.to_nat (j + 1)) with (Datatypes.S (Z.to_nat j)) by lia.
    erewrite take_S_r by (apply list_lookup_insert_eq; lia).
    rewrite take_insert_ge by lia.
    apply Forall_app. split; [done|]. apply Forall_singleton.
    by exists v.
Qed.

Lemma write_rows_triple bitmapID (profIDs : list Z) (st : GenSt S) :
  returns
    (for_loop (length profIDs) 0 (write_row bitmapID profIDs) tt) st
    (fun _ st' => w st' = w st ++ map (row_line bitmapID) profIDs).
Proof.
  unfold returns.
  eapply triple_mono; [| |
    apply (triple_for_loop
             (fun j (_ : unit) (st' : GenSt S) =>
                w st' = w st ++
                        map (row_line bitmapID) (take (Z.to_nat j) profIDs))
             (fun _ => False))].
  - intros u st' Hw. rewrite Z.add_0_l, Nat2Z.id in Hw.
    by rewrite firstn_all in Hw.
  - done.
  - simpl. by rewrite app_nil_r.
  - intros j [] st' Hj Hw.
    destruct (lookup_lt_is_Some_2 profIDs (Z.to_nat j)) as [x Hx]; [lia|].
    unfold write_row. apply triple_bind.
    eapply triple_index; [lia|done|].
    unfold Fprintf. apply triple_modify. simpl.
    replace (Z.to_nat (j + 1)) with (Datatypes.S (Z.to_nat j)) by lia.
    erewrite take_S_r by done. rewrite map_app, Hw. simpl.
    by rewrite <- app_assoc.
Qed.

Lemma group_body_triple i numrows (profileIDs : list Z) (st : GenSt S) :
  triple
    (group_body baseBitmapID baseProfileID maxProfileID minBitsPerMap
       maxBitsPerMap randomOrder bitmapIDs i (numrows, profileIDs)) st
    (fun acc st' =>
       exists g,
         group_ok baseBitmapID baseProfileID maxProfileID minBitsPerMap
           maxBitsPerMap randomOrder bitmapIDs i g /\
         w st' = w st ++ group_rows g /\
         acc.1 = add64 numrows (Z.of_nat (length g.2)) /\
         length acc.2 = length profileIDs)
    (fun st' =>
       w st' = w st /\
       group_panics baseBitmapID baseProfileID maxProfileID minBitsPerMap
         maxBitsPerMap randomOrder bitmapIDs (length profileIDs) i).
Proof.
  unfold group_body. cbn [fst snd].
  set (E := fun st' : GenSt S =>
              w st' = w st /\
              group_panics baseBitmapID baseProfileID maxProfileID
                minBitsPerMap maxBitsPerMap randomOrder bitmapIDs
                (length profileIDs) i).
  apply triple_bind.
  apply (triple_mono _ _
           (fun b st' => st' = st /\
              group_id randomOrder bitmapIDs baseBitmapID i = Some b)
           _ E E); [|done|].
  2:{ unfold group_id. destruct randomOrder.
      - apply triple_index_any.
        + intros Hbad. split; [done|]. left. unfold group_id.
          destruct (Z.ltb_spec (sub64 i baseBitmapID) 0); [done|].
          by destruct Hbad; [lia|].
        + intros x Hi Hx. split; [done|].
          by destruct (Z.ltb_spec (sub64 i baseBitmapID) 0); [lia|].
      - by apply triple_ret. }
  intros bitmapID ? [-> Hid].
  apply triple_bind. apply triple_on_rng_Int63n.
  { intros Hle. split; [done|]. right. by left. }
  intros r r' Hr.
  set (numBitsToSet := add64 r minBitsPerMap).
  assert (drawn minBitsPerMap maxBitsPerMap numBitsToSet) as Hdrawn
    by (by exists r).
  apply triple_bind.
  eapply triple_mono; [| |apply draw_profiles_triple].
  2:{ intros st1 (Hw1 & Hk & Hcause). split; [done|]. right. right.
      exists numBitsToSet. split; [done|].
      destruct Hcause; [right; right; lia|right; left; lia]. }
  intros p st1 (Hw1 & Hlen1 & HF1). cbv beta.
  apply triple_bind. apply triple_slice_to_any.
  { intros Hnot. split; [done|]. right. right.
    exists numBitsToSet. split; [done|]. lia. }
  intros Hn.
  set (profIDs := if randomOrder then take (Z.to_nat numBitsToSet) p
                  else sort_Sort (take (Z.to_nat numBitsToSet) p)).
  assert (profIDs ≡ₚ take (Z.to_nat numBitsToSet) p) as Hperm.
  { unfold profIDs, sort_Sort. destruct randomOrder; [done|].
    apply merge_sort_Permutation. }
  assert (length profIDs = Z.to_nat numBitsToSet) as Hlen.
  { rewrite Hperm, length_take. lia. }
  apply triple_bind. rewrite <- Hlen.
  eapply triple_mono; [| |apply write_rows_triple]; [|done].
  intros u st2 Hw2. cbv beta. apply triple_ret.
  exists (bitmapID, profIDs). unfold group_ok, group_rows. cbn [fst snd].
  assert (Z.of_nat (length profIDs) = numBitsToSet) as HlenZ by lia.
  repeat split.
  - done.
  - by rewrite HlenZ.
  - by rewrite Hperm.
  - intros ->. unfold profIDs, sort_Sort. apply Sorted_merge_sort. apply _.
  - by rewrite Hw2, Hw1.
  - by rewrite HlenZ.
  - rewrite length_app, length_drop, Hlen1. lia.
Qed.

End Group.
End GenerateFacts.

Lemma trace_ok_snoc base baseP maxP minB maxB ro ids groups g :
  trace_ok base baseP maxP minB maxB ro ids groups ->
  group_ok base baseP maxP minB maxB ro ids (base + Z.of_nat (length groups)) g ->
  trace_ok base baseP maxP minB maxB ro ids (groups ++ [g]).
Proof.
  unfold trace_ok. intros Hgs Hg.
  rewrite length_app. cbn [length].
  replace (length groups + 1)%nat with (Datatypes.S (length groups)) by lia.
  rewrite seqZ_S. apply Forall2_app; [done|]. by constructor.
Qed.

Lemma length_rows_of_snoc groups (g : Z * list Z) :
  Z.of_nat (length (rows_of (groups ++ [g]))) =
  Z.of_nat (length (rows_of groups)) + Z.of_nat (length g.2).
Proof.
  rewrite rows_of_snoc, length_app. unfold group_rows.
  rewrite length_map. lia.
Qed.

Section GenerateOutcome.
Context {S : Type} `{!Source S} {rt : Runtime}.
Variables baseBitmapID maxBitmapID baseProfileID maxProfileID : Z.
Variables minBitsPerMap maxBitsPerMap : Z.
Variable randomOrder : bool.

(** What [generate] has written when it returns and when it panics. *)
Lemma generate_triple (st : GenSt S) :
  triple
    (generate baseBitmapID maxBitmapID baseProfileID maxProfileID
       minBitsPerMap maxBitsPerMap randomOrder) st
    (fun n st' =>
       exists bitmapIDs groups,
         (randomOrder = true ->
          bitmapIDs ≡ₚ seqZ 0 (sub64 maxBitmapID baseBitmapID)) /\
         trace_ok baseBitmapID baseProfileID maxProfileID minBitsPerMap
           maxBitsPerMap randomOrder bitmapIDs groups /\
         Z.of_nat (length groups) = Z.max 0 (maxBitmapID - baseBitmapID) /\
         w st' = w st ++ rows_of groups /\
         n = wrap64 (Z.of_nat (length (rows_of groups))))
    (fun st' =>
       exists bitmapIDs groups,
         trace_ok baseBitmapID baseProfileID maxProfileID minBitsPerMap
           maxBitsPerMap randomOrder bitmapIDs groups /\
         w st' = w st ++ rows_of groups /\
         ((randomOrder = true /\
           (sub64 maxBitmapID baseBitmapID < 0 \/
            maxSliceLen < sub64 maxBitmapID baseBitmapID) /\
           groups = []) \/
          ((randomOrder = true ->
            bitmapIDs ≡ₚ seqZ 0 (sub64 maxBitmapID baseBitmapID)) /\
           (((maxBitsPerMap < 0 \/ maxSliceLen < maxBitsPerMap) /\
             groups = []) \/
            (Z.of_nat (length groups) < maxBitmapID - baseBitmapID /\
             group_panics baseBitmapID baseProfileID maxProfileID
               minBitsPerMap maxBitsPerMap randomOrder bitmapIDs
               (Z.to_nat maxBitsPerMap)
               (baseBitmapID + Z.of_nat (length groups))))))).
Proof.
  unfold generate.
  set (Q := fun (n : Z) (st' : GenSt S) => exists bitmapIDs groups, _).
  set (E := fun (st' : GenSt S) => exists bitmapIDs groups, _).
  apply triple_bind.
  apply (triple_mono _ _
           (fun ids (st' : GenSt S) =>
              w st' = w st /\
              (randomOrder = true ->
               ids ≡ₚ seqZ 0 (sub64 maxBitmapID baseBitmapID)))
           _ E E); [|done|].
  2:{ destruct randomOrder; [|by apply triple_ret].
      unfold on_rng. apply triple_zoom.
      destruct (decide (0 <= sub64 maxBitmapID baseBitmapID <= maxSliceLen))
        as [Hpos|Hneg].
      - eapply triple_mono; [| |apply (Perm_returns _ _ Hpos)]; [|done].
        intros ids s' Hids. by split.
      - unfold Perm, triple, bind. rewrite make_slice_panics by lia.
        destruct st as [r0 w0]. cbn.
        exists [], []. split; [constructor|].
        split; [by rewrite app_nil_r|]. left.
        split; [done|]. split; [lia|done]. }
  intros bitmapIDs st0 [Hw0 Hperm].
  apply triple_bind. apply triple_make_slice_any.
  { intros Hneg. exists bitmapIDs, [].
    split; [constructor|]. split; [by rewrite Hw0, app_nil_r|].
    right. split; [done|]. by left. }
  intros HmaxB.
  apply triple_bind.
  eapply triple_mono; [| |
    apply (triple_for_loop
             (fun i (acc : Z * list Z) (st' : GenSt S) =>
                exists groups,
                  Z.of_nat (length groups) = i - baseBitmapID /\
                  trace_ok baseBitmapID baseProfileID maxProfileID
                    minBitsPerMap maxBitsPerMap randomOrder bitmapIDs groups /\
                  w st' = w st ++ rows_of groups /\
                  acc.1 = wrap64 (Z.of_nat (length (rows_of groups))) /\
                  length acc.2 = Z.to_nat maxBitsPerMap)
             E)].
  - intros acc st' (groups & Hlen & Htr & Hw & Hn & _). cbv beta.
    apply triple_ret. exists bitmapIDs, groups.
    repeat split; [done|done|lia|done|done].
  - done.
  - exists []. cbn [length fst snd rows_of flat_map].
    split; [lia|]. split; [constructor|]. split; [by rewrite Hw0, app_nil_r|].
    split; [done|]. by rewrite length_replicate.
  - intros i [numrows pids] st' Hi (groups & Hlen & Htr & Hw & Hn & Hpids).
    cbn [fst snd] in Hn, Hpids.
    eapply triple_mono; [| |apply group_body_triple].
    + intros acc st'' (g & Hg & Hw' & Hn' & Hpids').
      exists (groups ++ [g]). rewrite length_app. cbn [length].
      split; [lia|].
      split. { apply trace_ok_snoc; [done|].
               by replace (baseBitmapID + Z.of_nat (length groups)) with i by lia. }
      split. { by rewrite rows_of_snoc, Hw', Hw, app_assoc. }
      split. { rewrite Hn', Hn. unfold add64.
               by rewrite wrap64_add_l, length_rows_of_snoc. }
      by rewrite Hpids'.
    + intros st'' (Hw' & Hcause). exists bitmapIDs, groups.
      split; [done|]. split; [by rewrite Hw'|].
      right. split; [done|]. right. split; [lia|].
      rewrite <- Hpids.
      by replace (baseBitmapID + Z.of_nat (length groups)) with i by lia.
Qed.

End GenerateOutcome.

Lemma drawn_range lo hi v :
  in_int64 lo -> in_int64 hi -> 0 < hi - lo < 2^63 ->
  drawn lo hi v -> lo <= v < hi.
Proof.
  intros Hlo Hhi Hd (r & Hr & ->). unfold sub64, add64 in *.
  unfold in_int64 in *.
  rewrite wrap64_id in Hr by (unfold in_int64; lia).
  rewrite wrap64_id by (unfold in_int64; lia). lia.
Qed.

Lemma valid_ranges_no_panic {rt : Runtime}
    base max baseP maxP minB maxB ro ids i :
  valid_ranges base max baseP maxP minB maxB ro ->
  (ro = true -> ids ≡ₚ seqZ 0 (sub64 max base)) ->
  base <= i < max ->
  ~ group_panics base baseP maxP minB maxB ro ids (Z.to_nat maxB) i.
Proof.
  intros (HminB & HmaxB & HbP & HmP & HP & Hro) Hids Hi.
  pose proof maxSliceLen_upper as Hupper.
  unfold group_panics, group_id. intros [Hid|[Hbits|(nb & Hnb & Hbad)]].
  - destruct ro; [|done].
    specialize (Hro eq_refl). specialize (Hids eq_refl).
    unfold sub64 in *.
    rewrite wrap64_id in Hids by (unfold in_int64; lia).
    rewrite wrap64_id in Hid by (unfold in_int64; lia).
    destruct (Z.ltb_spec (i - base) 0); [lia|].
    apply lookup_ge_None in Hid.
    rewrite Hids, length_seqZ in Hid. lia.
  - unfold sub64 in Hbits.
    rewrite wrap64_id in Hbits by (unfold in_int64; lia). lia.
  - apply drawn_range in Hnb; [|unfold in_int64; lia..].
    destruct Hbad as [?|[?|[_ Hbad]]]; [lia|lia|].
    unfold sub64 in Hbad. unfold in_int64 in *.
    rewrite wrap64_id in Hbad by (unfold in_int64; lia). lia.
Qed.

Section GenerateImportCSVFacts.
Context {S : Type} `{!Source S} {rt : Runtime}.
Variables baseBitmapID maxBitmapID baseProfileID maxProfileID : Z.
Variables minBitsPerMap maxBitsPerMap seed : Z.
Variable randomOrder : bool.

Lemma triple_GenerateImportCSV (w0 : Writer) Q E :
  triple
    (generate baseBitmapID maxBitmapID baseProfileID maxProfileID
       minBitsPerMap maxBitsPerMap randomOrder)
    (mkGenSt (NewSource seed) w0)
    (fun n st => Q n (w st)) (fun st => E (w st)) ->
  triple
    (GenerateImportCSV baseBitmapID maxBitmapID baseProfileID maxProfileID
       minBitsPerMap maxBitsPerMap seed randomOrder) w0 Q E.
Proof.
  unfold triple, GenerateImportCSV.
  by destruct (generate _ _ _ _ _ _ _ _) as [[n|e] st].
Qed.

(** On valid ranges the generator returns, and what it wrote and returned
    is described by the groups of its iterations. *)
Lemma GenerateImportCSV_returns (w0 : Writer) :
  valid_ranges baseBitmapID maxBitmapID baseProfileID maxProfileID
    minBitsPerMap maxBitsPerMap randomOrder ->
  returns
    (GenerateImportCSV baseBitmapID maxBitmapID baseProfileID maxProfileID
       minBitsPerMap maxBitsPerMap seed randomOrder) w0
    (fun n w' =>
       exists bitmapIDs groups,
         generated baseBitmapID maxBitmapID baseProfileID maxProfileID
           minBitsPerMap maxBitsPerMap randomOrder bitmapIDs groups w0 n w').
Proof.
  intros Hvalid. unfold returns. apply triple_GenerateImportCSV.
  eapply triple_mono; [| |apply generate_triple].
  - intros n st (ids & groups & H). by exists ids, groups.
  - intros st (ids & groups & Htr & Hw & Hcause). cbn [w] in *.
    pose proof maxSliceLen_upper as Hupper.
    pose proof Hvalid as (HminB & HmaxB & HbP & HmP & HP & Hro).
    destruct Hcause as [(-> & Hneg & _)|[Hids [[Hneg _]|[Hlen Hpanic]]]].
    + specialize (Hro eq_refl). unfold sub64 in Hneg.
      rewrite wrap64_id in Hneg by (unfold in_int64; lia). lia.
    + lia.
    + eapply valid_ranges_no_panic; [exact Hvalid|exact Hids| |exact Hpanic].
      lia.
Qed.

(** Whatever the arguments, what has been written when the generator
    returns or panics are the rows of whole groups, those of the first
    iterations. *)
Lemma GenerateImportCSV_written (w0 : Writer) :
  triple
    (GenerateImportCSV baseBitmapID maxBitmapID baseProfileID maxProfileID
       minBitsPerMap maxBitsPerMap seed randomOrder) w0
    (fun n w' =>
       exists bitmapIDs groups,
         generated baseBitmapID maxBitmapID baseProfileID maxProfileID
           minBitsPerMap maxBitsPerMap randomOrder bitmapIDs groups w0 n w')
    (fun w' =>
       exists bitmapIDs groups,
         trace_ok baseBitmapID baseProfileID maxProfileID minBitsPerMap
           maxBitsPerMap randomOrder bitmapIDs groups /\
         Z.of_nat (length groups) <= Z.max 0 (maxBitmapID - baseBitmapID) /\
         w' = w0 ++ rows_of groups).
Proof.
  apply triple_GenerateImportCSV.
  eapply triple_mono; [| |apply generate_triple].
  - intros n st (ids & groups & H). by exists ids, groups.
  - intros st (ids & groups & Htr & Hw & Hcause). cbn [w] in *.
    exists ids, groups. repeat split; [done| |done].
    destruct Hcause as [(_ & _ & ->)|[_ [[_ ->]|[Hlen _]]]]; simpl; lia.
Qed.

End GenerateImportCSVFacts.

(** The bitmap ids of the groups, in the order visited. *)
Lemma trace_ok_ids_ordered base baseP maxP minB maxB ids groups :
  trace_ok base baseP maxP minB maxB false ids groups ->
  map fst groups = seqZ base (Z.of_nat (length groups)).
Proof.
  unfold trace_ok. generalize (seqZ base (Z.of_nat (length groups))).
  intros l HF. induction HF as [|i g l groups (Hid & _) _ IH]; [done|].
  simpl. rewrite IH. unfold group_id in Hid. congruence.
Qed.

Lemma trace_ok_ids_random base baseP maxP minB maxB ids groups :
  Z.of_nat (length groups) <= 2^63 ->
  trace_ok base baseP maxP minB maxB true ids groups ->
  map fst groups = take (length groups) ids.
Proof.
  unfold trace_ok. intros Hlen HF.
  apply list_eq. intros k.
  rewrite list_lookup_fmap.
  destruct (decide (k < length groups)%nat) as [Hk|Hk].
  - rewrite lookup_take_lt by done.
    destruct (lookup_lt_is_Some_2 groups k Hk) as [g Hg].
    rewrite Hg. simpl.
    destruct (Forall2_lookup_r _ _ _ _ _ HF Hg) as (i & Hi & Hid & _).
    apply lookup_seqZ in Hi as [-> Hi].
    unfold group_id, sub64 in Hid.
    replace (base + Z.of_nat k - base) with (Z.of_nat k) in Hid by lia.
    rewrite wrap64_id in Hid by (unfold in_int64; lia).
    destruct (Z.ltb_spec (Z.of_nat k) 0); [lia|].
    by rewrite Nat2Z.id in Hid.
  - rewrite lookup_take_ge by lia.
    by rewrite lookup_ge_None_2 by lia.
Qed.

Lemma trace_ok_sorted base baseP maxP minB maxB ids groups :
  trace_ok base baseP maxP minB maxB false ids groups ->
  Forall (fun g => Sorted Z.le g.2) groups.
Proof.
  unfold trace_ok. generalize (seqZ base (Z.of_nat (length groups))).
  intros l HF. induction HF as [|i g l groups (_ & _ & _ & Hs) _ IH];
    constructor; auto.
Qed.

(** With [randomOrder] and valid ranges the ids of the groups are a
    permutation of [[0, maxBitmapID - baseBitmapID)]: [baseBitmapID] is
    not added to the numbers that [Perm] returns. *)
Lemma GenerateImportCSV_random_ids {S} `{!Source S} {rt : Runtime}
    base max baseP maxP minB maxB seed (w0 : Writer) :
  valid_ranges base max baseP maxP minB maxB true ->
  returns (GenerateImportCSV base max baseP maxP minB maxB seed true) w0
    (fun n w' =>
       exists groups,
         w' = w0 ++ rows_of groups /\
         map fst groups ≡ₚ seqZ 0 (max - base)).
Proof.
  intros Hvalid. unfold returns.
  eapply triple_mono; [| |by apply GenerateImportCSV_returns]; [|done].
  intros n w' (ids & groups & Hids & Htr & Hlen & Hw & Hn).
  exists groups. split; [done|].
  pose proof maxSliceLen_upper as Hupper.
  destruct Hvalid as (_ & _ & _ & _ & _ & Hro). specialize (Hro eq_refl).
  specialize (Hids eq_refl). unfold sub64 in Hids.
  rewrite wrap64_id in Hids by (unfold in_int64; lia).
  assert (Z.of_nat (length groups) <= 2^63) as Hle by lia.
  rewrite (trace_ok_ids_random _ _ _ _ _ _ _ Hle Htr).
  rewrite take_ge; [done|].
  rewrite Hids, length_seqZ. lia.
Qed.



(** A degenerate range of bit counts makes the generator panic in its
    first iteration. *)
Lemma GenerateImportCSV_degenerate_bits :
  GenerateImportCSV (S := list Z) 0 1 0 100 1 1 0 false [] =
  (Panic "invalid argument to Int63n", []).
Proof. vm_compute. reflexivity. Qed.




(** C1: with [randomOrder] the bitmap ids written for the range [[5, 7)]
    are 0 and 1, in some order: none of them lies in [[5, 7)]. *)
Theorem GenerateImportCSV_random_ids_not_in_range {S} `{!Source S} {rt : Runtime}
    seed (w0 : Writer) :
  exists b1 b2 p1 p2,
    GenerateImportCSV 5 7 0 100 1 2 seed true w0 =
    (Ok 2, w0 ++ [row_line b1 p1; row_line b2 p2]) /\
    [b1; b2] ≡ₚ [0; 1] /\
    ~ (5 <= b1 < 7) /\ ~ (5 <= b2 < 7).
Proof.
  assert (valid_ranges 5 7 0 100 1 2 true) as Hvalid.
  { pose proof maxSliceLen_lower.
    unfold valid_ranges, in_int64. repeat split; try lia. }
  pose proof (GenerateImportCSV_returns 5 7 0 100 1 2 seed true w0 Hvalid) as Hr.
  unfold returns, triple in Hr.
  destruct (GenerateImportCSV 5 7 0 100 1 2 seed true w0) as [[n|e] w'];
    [|done].
  destruct Hr as (ids & groups & Hids & Htr & Hlen & -> & ->).
  specialize (Hids eq_refl). change (sub64 7 5) with 2 in Hids.
  change (seqZ 0 2) with [0; 1] in Hids.
  assert (Z.of_nat (length groups) <= 2^63) as Hle by lia.
  pose proof (trace_ok_ids_random _ _ _ _ _ _ _ Hle Htr) as Hfst.
  destruct groups as [|[b1 ps1] [|[b2 ps2] [|? ?]]]; try (simpl in Hlen; lia).
  rewrite take_ge in Hfst by (rewrite Hids; simpl; lia).
  simpl in Hfst. rewrite <- Hfst in Hids.
  unfold trace_ok in Htr. change (seqZ 5 (Z.of_nat 2)) with [5; 6] in Htr.
  apply Forall2_cons_1 in Htr as [(_ & Hn1 & _) Htr].
  apply Forall2_cons_1 in Htr as [(_ & Hn2 & _) _].
  cbn [fst snd] in Hn1, Hn2.
  destruct Hn1 as (r1 & Hr1 & Hl1). destruct Hn2 as (r2 & Hr2 & Hl2).
  change (sub64 2 1) with 1 in Hr1, Hr2.
  assert (r1 = 0) as -> by lia. assert (r2 = 0) as -> by lia.
  change (add64 0 1) with 1 in Hl1, Hl2.
  destruct ps1 as [|p1 [|? ?]]; try (simpl in Hl1; lia).
  destruct ps2 as [|p2 [|? ?]]; try (simpl in Hl2; lia).
  exists b1, b2, p1, p2. split; [reflexivity|]. split; [done|].
  assert (Forall (fun b => 0 <= b < 2) [b1; b2]) as HF.
  { rewrite Hids. repeat constructor; lia. }
  apply Forall_cons_1 in HF as [? HF]. apply Forall_cons_1 in HF as [? _].
  lia.
Qed.

(** *** The writer is only appended to

    What a call writes and returns does not depend on what the writer
    already holds. *)

Section WriterFrame.
Context {S : Type} `{!Source S} {rt : Runtime}.

Lemma framed_ret {A} (a : A) : writer_framed S (ret a).
Proof. done. Qed.

Lemma framed_panic {A} msg : writer_framed S (panic (A := A) msg).
Proof. done. Qed.

Lemma framed_bind {A B} (m : M (GenSt S) A) (f : A -> M (GenSt S) B) :
  writer_framed S m -> (forall a, writer_framed S (f a)) ->
  writer_framed S (bind m f).
Proof.
  intros Hm Hf r wr w0. unfold bind. rewrite Hm.
  destruct (m (mkGenSt r wr)) as [[a|e] [r' w']]; [|done].
  cbn [rng w]. apply Hf.
Qed.

Lemma framed_for_loop {A} (body : Z -> A -> M (GenSt S) A) k i a :
  (forall i a, writer_framed S (body i a)) ->
  writer_framed S (for_loop k i body a).
Proof.
  intros Hbody. revert i a. induction k as [|k IH]; intros i a.
  - apply framed_ret.
  - cbn [for_loop]. apply framed_bind; [apply Hbody|]. intros a'. apply IH.
Qed.

Lemma framed_on_rng {A} (m : M S A) : writer_framed S (on_rng m).
Proof.
  intros r wr w0. unfold on_rng, zoom. cbn [rng w].
  by destruct (m r) as [a r'].
Qed.

Lemma framed_Fprintf line : writer_framed S (Fprintf line).
Proof.
  intros r wr w0. unfold Fprintf, modify. cbn [rng w].
  by rewrite app_assoc.
Qed.

Lemma framed_index {A} (l : list A) i : writer_framed S (index l i).
Proof.
  unfold index. destruct (i <? 0); [apply framed_panic|].
  destruct (l !! Z.to_nat i); [apply framed_ret|apply framed_panic].
Qed.

Lemma framed_set_index {A} (l : list A) i x : writer_framed S (set_index l i x).
Proof.
  unfold set_index.
  destruct ((i <? 0) || (Z.of_nat (length l) <=? i));
    [apply framed_panic|apply framed_ret].
Qed.

Lemma framed_slice_to {A} (l : list A) n : writer_framed S (slice_to l n).
Proof.
  unfold slice_to.
  destruct ((n <? 0) || (Z.of_nat (length l) <? n));
    [apply framed_panic|apply framed_ret].
Qed.

Lemma framed_make_slice {A} (z : A) n : writer_framed S (make_slice z n).
Proof.
  unfold make_slice.
  destruct ((n <? 0) || (maxSliceLen <? n)); [apply framed_panic|apply framed_ret].
Qed.

Lemma framed_group_body base baseP maxP minB maxB ro ids i acc :
  writer_framed S (group_body base baseP maxP minB maxB ro ids i acc).
Proof.
  unfold group_body.
  apply framed_bind.
  { destruct ro; [apply framed_index|apply framed_ret]. }
  intros bitmapID. apply framed_bind; [apply framed_on_rng|]. intros r.
  apply framed_bind.
  { apply framed_for_loop. intros j p. unfold draw_profile.
    apply framed_bind; [apply framed_on_rng|]. intros v.
    apply framed_set_index. }
  intros p. apply framed_bind; [apply framed_slice_to|]. intros profIDs.
  apply framed_bind; [|intros; apply framed_ret].
  apply framed_for_loop. intros j u. unfold write_row.
  apply framed_bind; [apply framed_index|]. intros x. apply framed_Fprintf.
Qed.

Lemma framed_generate base max baseP maxP minB maxB ro :
  writer_framed S (generate base max baseP maxP minB maxB ro).
Proof.
  unfold generate.
  apply framed_bind.
  { destruct ro; [apply framed_on_rng|apply framed_ret]. }
  intros ids. apply framed_bind; [apply framed_make_slice|]. intros p.
  apply framed_bind; [|intros; apply framed_ret].
  apply framed_for_loop. intros i acc. apply framed_group_body.
Qed.

Lemma GenerateImportCSV_frame base max baseP maxP minB maxB seed ro
    (w0 : Writer) :
  GenerateImportCSV base max baseP maxP minB maxB seed ro w0 =
  let '(r, out) := GenerateImportCSV base max baseP maxP minB maxB seed ro []
  in (r, w0 ++ out).
Proof.
  unfold GenerateImportCSV.
  pose proof (framed_generate base max baseP maxP minB maxB ro
                (NewSource seed) [] w0) as Hf.
  rewrite app_nil_r in Hf. rewrite Hf. clear Hf.
  destruct (generate _ _ _ _ _ _ _ _) as [r st]. reflexivity.
Qed.

End WriterFrame.

(** C8: the scenario [GenerateImportCSV(w, 0, 3, 0, 100, 1, 2, 42, false)].
    Whatever the generator behind [rand.NewSource], the call writes three
    lines, one for each of the bitmap ids 0, 1, 2 in this order, each with
    a profile id in [[0, 100)], and returns 3, the number of lines; two
    calls, on whatever writers, write the same lines and return the same
    count. *)
Theorem GenerateImportCSV_scenario {S} `{!Source S} {rt : Runtime} (w1 w2 : Writer) :
  exists p0 p1 p2,
    let out := [row_line 0 p0; row_line 1 p1; row_line 2 p2] in
    (0 <= p0 < 100 /\ 0 <= p1 < 100 /\ 0 <= p2 < 100) /\
    GenerateImportCSV 0 3 0 100 1 2 42 false w1 =
      (Ok (Z.of_nat (length out)), w1 ++ out) /\
    GenerateImportCSV 0 3 0 100 1 2 42 false w2 =
      (Ok (Z.of_nat (length out)), w2 ++ out).
Proof.
  assert (valid_ranges 0 3 0 100 1 2 false) as Hvalid.
  { pose proof maxSliceLen_lower.
    unfold valid_ranges, in_int64. repeat split; try lia. }
  pose proof (GenerateImportCSV_returns 0 3 0 100 1 2 42 false [] Hvalid) as Hr.
  rewrite (GenerateImportCSV_frame _ _ _ _ _ _ _ _ w1).
  rewrite (GenerateImportCSV_frame _ _ _ _ _ _ _ _ w2).
  unfold returns, triple in Hr.
  destruct (GenerateImportCSV 0 3 0 100 1 2 42 false []) as [[n|e] out];
    [|done].
  destruct Hr as (ids & groups & _ & Htr & Hlen & -> & ->).
  pose proof (trace_ok_ids_ordered _ _ _ _ _ _ _ Htr) as Hfst.
  destruct groups as [|[b0 ps0] [|[b1 ps1] [|[b2 ps2] [|? ?]]]];
    try (simpl in Hlen; lia).
  change (seqZ 0 (Z.of_nat 3)) with [0; 1; 2] in Hfst.
  simpl in Hfst. injection Hfst as -> -> ->.
  unfold trace_ok in Htr. change (seqZ 0 (Z.of_nat 3)) with [0; 1; 2] in Htr.
  apply Forall2_cons_1 in Htr as [(_ & Hn0 & Hp0 & _) Htr].
  apply Forall2_cons_1 in Htr as [(_ & Hn1 & Hp1 & _) Htr].
  apply Forall2_cons_1 in Htr as [(_ & Hn2 & Hp2 & _) _].
  cbn [fst snd] in *.
  destruct Hn0 as (r0 & Hr0 & Hl0). destruct Hn1 as (r1 & Hr1 & Hl1).
  destruct Hn2 as (r2 & Hr2 & Hl2).
  change (sub64 2 1) with 1 in Hr0, Hr1, Hr2.
  assert (r0 = 0) as -> by lia. assert (r1 = 0) as -> by lia.
  assert (r2 = 0) as -> by lia.
  change (add64 0 1) with 1 in Hl0, Hl1, Hl2.
  destruct ps0 as [|p0 [|? ?]]; try (simpl in Hl0; lia).
  destruct ps1 as [|p1 [|? ?]]; try (simpl in Hl1; lia).
  destruct ps2 as [|p2 [|? ?]]; try (simpl in Hl2; lia).
  rewrite Forall_singleton in Hp0, Hp1, Hp2.
  apply drawn_range in Hp0, Hp1, Hp2; try (unfold in_int64; lia).
  exists p0, p1, p2. cbv zeta. split; [lia|]. split; reflexivity.
Qed.

(** ** Import.Init *)

(** C6: [Init] returns the error "Need at least one host" on an empty
    host list, with nothing changed, and the error "agent-controls: ...
    is not supported" when [AgentControls] is none of "height", "width"
    and the empty string; in both cases no temporary file has been
    created and nothing generated: the file system, [numbits] and [Paths]
    are as before the call. *)
Theorem Import_Init_configuration_errors {S} `{!Source S} {rt : Runtime}
    (agentNum : Z) (st : InitSt) :
  Import_Init [] agentNum st = (Ok (Some "Need at least one host"), st) /\
  (forall host hosts,
     AgentControls (imp st) <> "height" ->
     AgentControls (imp st) <> "width" ->
     AgentControls (imp st) <> "" ->
     exists st',
       Import_Init (host :: hosts) agentNum st =
       (Ok (Some ("agent-controls: '" +:+ AgentControls (imp st)
                  +:+ "' is not supported")), st') /\
       fs st' = fs st /\
       numbits (imp st') = numbits (imp st) /\
       Paths (imp st') = Paths (imp st)).
Proof.
  split; [reflexivity|].
  intros host hosts Hh Hw He.
  destruct st as [b f]. cbn [imp] in *.
  eexists. unfold Import_Init, bind, on_imp, modify, gets.
  cbn [imp fs set_Name set_Host set_Seed AgentControls].
  destruct (decide (AgentControls b = "height")); [done|].
  destruct (decide (AgentControls b = "width")); [done|].
  destruct (decide (AgentControls b = "")); [done|].
  split; [reflexivity|]. by cbn.
Qed.

Lemma Import_Init_configuration_errors_witness :
  let b := mkImport "" 0 10 0 10 false 1 2 "bogus" 0 0 "" "i" "f" 100 [] in
  let st := mkInitSt b (mkFS ∅ "/tmp/1" None None) in
  exists st',
    Import_Init (S := list Z) ["localhost:10101"] 3 st =
    (Ok (Some "agent-controls: 'bogus' is not supported"), st') /\
    fs st' = fs st /\
    numbits (imp st') = numbits (imp st) /\
    Paths (imp st') = Paths (imp st).
Proof.
  intros b st.
  apply (proj2 (Import_Init_configuration_errors (S := list Z) 3 st)
           "localhost:10101" []); discriminate.
Defined.

(** ** Query.Run and BasicQuery.Run *)

Lemma Query_Run_loop_step b c k n results st :
  Query_Run_loop b c (Datatypes.S k) n results st =
  let r := exec c (calls st) (Query_Index b) (Query_Query b) in
  let st' :=
    mkRunSt (Datatypes.S (calls st)) (now st + reply_elapsed r)
      (stderr st ++ [(results, now st, reply_res r)]) (run_heap st) in
  let results' :=
    Result_Add (now st + reply_elapsed r - now st) (reply_res r) results in
  match reply_err r with
  | Some e =>
    (Ok (set_err ("problem with query #" +:+ pretty n +:+ ": " +:+ e)
           results'), st')
  | None => Query_Run_loop b c k (n + 1) results' st'
  end.
Proof.
  cbn [Query_Run_loop]. unfold bind. cbn.
  by destruct (reply_err _).
Qed.

(** A client that fails at call [calls st + j] stops the loop of
    [Query.Run] after [j + 1] measurements, those of the calls made, the
    last one being that of the failing call; the error names the
    iteration. *)
Lemma Query_Run_loop_fails b c j :
  forall k n results st,
    (forall i index query, (calls st <= i < calls st + j)%nat ->
       reply_err (exec c i index query) = None) ->
    (forall index query,
       is_Some (reply_err (exec c (calls st + j) index query))) ->
    (j < k)%nat ->
    returns (Query_Run_loop b c k n results) st
      (fun res st' =>
         measurements res =
           measurements results ++
           map (measurement_of c b) (seq (calls st) (Datatypes.S j)) /\
         (exists e,
            reply_err (exec c (calls st + j) (Query_Index b) (Query_Query b))
              = Some e /\
            err res =
              Some ("problem with query #" +:+ pretty (n + Z.of_nat j)
                    +:+ ": " +:+ e)) /\
         calls st' = (calls st + Datatypes.S j)%nat).
Proof.
  unfold returns, triple.
  induction j as [|j IH]; intros k n results st Hok Hfail Hk;
    (destruct k as [|k]; [lia|]); rewrite Query_Run_loop_step; cbv zeta.
  - destruct (Hfail (Query_Index b) (Query_Query b)) as [e He].
    rewrite Nat.add_0_r in He. rewrite He. cbn.
    rewrite Z.add_simpl_l, Nat.add_0_r, Z.add_0_r.
    split; [done|]. split; [by exists e|lia].
  - rewrite (Hok (calls st)) by lia.
    match goal with |- context [Query_Run_loop b c k ?n' ?r' ?s'] =>
      specialize (IH k n' r' s') end.
    cbn [calls] in IH.
    destruct (Query_Run_loop _ _ _ _ _ _) as [[res|e] st'].
    + destruct IH as (Hm & (e & He & Herr) & Hcalls).
      * intros i index query Hi. apply Hok. lia.
      * intros index query.
        replace (Datatypes.S (calls st) + j)%nat
          with (calls st + Datatypes.S j)%nat by lia.
        apply Hfail.
      * lia.
      * split.
        { rewrite Hm. cbn [measurements Result_Add].
          rewrite Z.add_simpl_l, <- app_assoc. done. }
        split; [|lia]. exists e.
        replace (calls st + Datatypes.S j)%nat
          with (Datatypes.S (calls st) + j)%nat by lia.
        split; [done|]. rewrite Herr. do 3 f_equal. f_equal. lia.
    + apply IH; [intros; apply Hok; lia| |lia].
      intros index query.
      replace (Datatypes.S (calls st) + j)%nat
        with (calls st + Datatypes.S j)%nat by lia.
      apply Hfail.
Qed.

Lemma triple_on_run_heap {A} (m : M Heap A) (st : RunSt) Q E :
  triple m (run_heap st)
    (fun a h => Q a (mkRunSt (calls st) (now st) (stderr st) h))
    (fun h => E (mkRunSt (calls st) (now st) (stderr st) h)) ->
  triple (on_run_heap m) st Q E.
Proof. intros H. unfold on_run_heap. by apply triple_zoom. Qed.

Lemma set_rowID_loop_returns (bms : list (option Call)) v (st : RunSt) :
  Forall has_args bms ->
  returns (for_loop (length bms) 0 (set_rowID bms v) tt) st
    (fun _ st' => same_client_state st st').
Proof.
  intros Hbms. unfold returns.
  eapply triple_mono; [| |
    apply (triple_for_loop
             (fun (_ : Z) (_ : unit) st' => same_client_state st st')
             (fun _ => False))]; [done|done|done|].
  intros j [] st' Hj Hst'.
  destruct (lookup_lt_is_Some_2 bms (Z.to_nat j)) as [p Hp]; [lia|].
  unfold set_rowID. apply triple_bind.
  eapply triple_index; [lia|done|].
  rewrite Forall_forall in Hbms.
  destruct (Hbms p) as (c & l & -> & ->).
  { by eapply list_elem_of_lookup_2. }
  apply triple_on_run_heap. unfold map_assign. apply triple_modify.
  done.
Qed.

Lemma bms_init_returns frame (n : nat) (st : RunSt) :
  returns
    (for_loop n 0
       (fun i bms =>
          let* args := on_run_heap (new_map {[ "frame" := VString frame ]}) in
          set_index bms i (Some (mkCall "Bitmap" args [])))
       (replicate n None)) st
    (fun bms st' => Forall has_args bms /\ same_client_state st st').
Proof.
  unfold returns.
  eapply triple_mono; [| |
    apply (triple_for_loop
             (fun j (bms : list (option Call)) st' =>
                length bms = n /\
                Forall has_args (take (Z.to_nat j) bms) /\
                same_client_state st st')
             (fun _ => False))].
  - intros bms st' (Hlen & HF & Hst'). rewrite Z.add_0_l, Nat2Z.id in HF.
    rewrite take_ge in HF by lia. done.
  - done.
  - split; [by rewrite length_replicate|]. split; [by constructor|done].
  - intros j bms st' Hj (Hlen & HF & Hst').
    apply triple_bind. apply triple_on_run_heap.
    unfold new_map, triple.
    apply triple_set_index; [lia|].
    split; [by rewrite length_insert|]. split; [|done].
    replace (Z.to_nat (j + 1)) with (Datatypes.S (Z.to_nat j)) by lia.
    erewrite take_S_r by (apply list_lookup_insert_eq; lia).
    rewrite take_insert_ge by lia.
    apply Forall_app. split; [done|]. apply Forall_singleton.
    by eexists _, _.
Qed.

Section BasicQueryFacts.
Context {rt : Runtime}.
Variable Call_String : Heap -> Call -> string.

(** A client that fails at call [calls st + j] stops the loop of
    [BasicQuery.Run] after [j + 1] measurements; the last one is the
    time that the failing call took, with no response, and the error is
    the one of that call. *)
Lemma BasicQuery_Run_loop_fails b c bms j :
  Forall has_args bms ->
  forall k n results st,
    (forall i index query, (calls st <= i < calls st + j)%nat ->
       reply_err (exec c i index query) = None) ->
    (forall index query,
       is_Some (reply_err (exec c (calls st + j) index query))) ->
    (j < k)%nat ->
    returns (BasicQuery_Run_loop Call_String b c bms k n results) st
      (fun res st' =>
         length (measurements res) =
           (length (measurements results) + Datatypes.S j)%nat /\
         (exists text,
            last (measurements res) =
              Some (reply_elapsed
                      (exec c (calls st + j) (BasicQuery_Index b) text),
                    None) /\
            err res =
              reply_err (exec c (calls st + j) (BasicQuery_Index b) text)) /\
         is_Some (err res) /\
         calls st' = (calls st + Datatypes.S j)%nat).
Proof.
  intros Hbms. unfold returns.
  induction j as [|j IH]; intros k n results st Hok Hfail Hk;
    (destruct k as [|k]; [lia|]); cbn [BasicQuery_Run_loop];
    apply triple_bind;
    (eapply triple_mono; [| |by apply set_rowID_loop_returns]; [|done]);
    intros [] st1 (Hc & Hn & He); cbv beta.
  - unfold triple, bind, time_Now, time_Since, gets, ExecuteQuery.
    cbn [fst snd calls now].
    match goal with |- context [exec c ?i ?x ?q] =>
      destruct (Hfail x q) as [e Herr]; rewrite Nat.add_0_r, <- Hc in Herr;
      rewrite Herr; set (text := q) in * end.
    cbn. rewrite length_app. cbn. split; [done|].
    split; [|split; [by eexists|lia]].
    exists text. rewrite last_snoc, Z.add_simpl_l, Nat.add_0_r, <- Hc.
    by rewrite Herr.
  - unfold triple at 1. unfold bind at 1 2 3 4.
    unfold time_Now, time_Since, gets, ExecuteQuery.
    cbn [fst snd calls now].
    match goal with |- context [exec c ?i ?x ?q] =>
      rewrite (Hok i x q) by lia end.
    match goal with
    |- context [BasicQuery_Run_loop Call_String b c bms k ?n' ?r' ?s'] =>
      specialize (IH k n' r' s') end.
    cbn [calls] in IH.
    unfold triple in IH.
    destruct (BasicQuery_Run_loop _ _ _ _ _ _ _ _) as [[res|e] st'].
    + destruct IH as (Hlen & (text & Hlast & Herr') & Herr & Hcalls).
      * intros i index query Hi. apply Hok. lia.
      * intros index query.
        replace (Datatypes.S (calls st1) + j)%nat
          with (calls st + Datatypes.S j)%nat by lia.
        apply Hfail.
      * lia.
      * cbn in Hlen. rewrite length_app in Hlen. cbn in Hlen.
        split; [lia|]. split; [|split; [done|lia]].
        exists text.
        replace (calls st + Datatypes.S j)%nat
          with (Datatypes.S (calls st1) + j)%nat by lia.
        done.
    + apply IH; [intros; apply Hok; lia| |lia].
      intros index query.
      replace (Datatypes.S (calls st1) + j)%nat
        with (calls st + Datatypes.S j)%nat by lia.
      apply Hfail.
Qed.

End BasicQueryFacts.

Lemma third_call_fails_spec : fails_first_at third_call_fails 2.
Proof.
  split.
  - intros [|[|i]] index query Hi; [done|done|lia].
  - intros index query. by eexists.
Qed.

(** [Query.Run] with a client that fails on its third call: three
    measurements. *)
Lemma Query_Run_third_call_fails_run :
  Query_Run (mkQuery (Some third_call_fails) "query" "Count(Bitmap(rowID=1))"
               "benchindex" 5) fresh_run =
  (Ok (mkResult [(5, Some "ok"); (5, Some "ok"); (7, None)]
         (Some "problem with query #2: connection refused")),
   mkRunSt 3 17
     [(mkResult [] None, 0, Some "ok");
      (mkResult [(5, Some "ok")] None, 5, Some "ok");
      (mkResult [(5, Some "ok"); (5, Some "ok")] None, 10, None)] ∅).
Proof. vm_compute. reflexivity. Qed.




(** ** copyArgs, SetRowAttrs and SetColumnAttrs *)

Lemma foldl_insert_list_to_map (l : list (string * Value)) :
  NoDup (l.*1) ->
  foldl (fun (a : gmap string Value) kv => <[kv.1 := kv.2]> a) ∅ l =
  list_to_map l.
Proof.
  induction l as [|[k v] l IH] using rev_ind; intros Hnd; [done|].
  rewrite fmap_app in Hnd. apply NoDup_app in Hnd as (Hnd & Hk & _).
  rewrite foldl_snoc, IH by done. cbn [fst snd].
  rewrite list_to_map_snoc; [done|].
  intros Hin. apply (Hk k Hin). simpl. by left.
Qed.

Lemma for_each_map_assign (l : loc) (kvs : list (string * Value)) :
  forall (h : Heap) (acc : gmap string Value),
    h !! l = Some acc ->
    for_each kvs (fun kv => map_assign (Some l) kv.1 kv.2) h =
    (Ok tt,
     <[l := foldl (fun (a : gmap string Value) kv => <[kv.1 := kv.2]> a)
              acc kvs]> h).
Proof.
  induction kvs as [|[k v] kvs IH]; intros h acc Hl.
  - simpl. unfold ret. by rewrite insert_id.
  - cbn [for_each]. unfold bind, map_assign, modify, entries.
    rewrite Hl. cbn [default fst snd].
    rewrite (IH _ (<[k := v]> acc)) by apply lookup_insert_eq.
    by rewrite insert_insert_eq.
Qed.

Lemma entries_new_map (h : Heap) (m : option loc) (x : gmap string Value) :
  entries (<[fresh (dom h) := ∅]> h) m = entries h m.
Proof.
  destruct m as [l|]; [|done]. unfold entries.
  destruct (decide (l = fresh (dom h))) as [->|Hne].
  - rewrite lookup_insert_eq.
    by rewrite (proj1 (not_elem_of_dom h _) (is_fresh (dom h))).
  - by rewrite lookup_insert_ne.
Qed.

(** [copyArgs] allocates a map with the entries of [m] and changes
    nothing else. *)
Lemma copyArgs_returns (m : option loc) (h : Heap) :
  copyArgs m h =
  (Ok (Some (fresh (dom h))), <[fresh (dom h) := entries h m]> h).
Proof.
  unfold copyArgs, bind, new_map, gets.
  rewrite (entries_new_map h m ∅).
  rewrite (for_each_map_assign _ _ _ ∅) by apply lookup_insert_eq.
  rewrite foldl_insert_list_to_map by apply NoDup_fst_map_to_list.
  rewrite list_to_map_to_list. by rewrite insert_insert_eq.
Qed.

Lemma lookup_insert_fresh (h : Heap) (m : gmap string Value) (l0 : loc) :
  is_Some (h !! l0) -> <[fresh (dom h) := m]> h !! l0 = h !! l0.
Proof.
  intros Hl0. apply lookup_insert_ne. intros <-.
  apply (is_fresh (dom h)). by apply elem_of_dom.
Qed.

Lemma entries_insert (h : Heap) (l : loc) (x : gmap string Value) :
  entries (<[l := x]> h) (Some l) = x.
Proof. unfold entries. by rewrite lookup_insert_eq. Qed.

Lemma SetRowAttrs_run (id : Z) (frame : string) (attrs : option loc)
    (h : Heap) :
  SetRowAttrs id frame attrs h =
  (Ok (Some (mkCall "SetRowAttrs" (Some (fresh (dom h))) [])),
   <[fresh (dom h) := <["columnID" := VString frame]>
                        (<["id" := VUint64 id]> (entries h attrs))]> h).
Proof.
  unfold SetRowAttrs, bind. rewrite copyArgs_returns.
  unfold map_assign, modify, ret.
  rewrite entries_insert, insert_insert_eq.
  by rewrite entries_insert, insert_insert_eq.
Qed.

Lemma SetColumnAttrs_run (id : Z) (attrs : option loc) (h : Heap) :
  SetColumnAttrs id attrs h =
  (Ok (Some (mkCall "SetColumnAttrs" (Some (fresh (dom h))) [])),
   <[fresh (dom h) := <["id" := VUint64 id]> (entries h attrs)]> h).
Proof.
  unfold SetColumnAttrs, bind. rewrite copyArgs_returns.
  unfold map_assign, modify, ret.
  by rewrite entries_insert, insert_insert_eq.
Qed.

(** C9: [SetRowAttrs] and [SetColumnAttrs] return a node whose argument
    map is a newly allocated map, holding the entries of [attrs] and the
    keys the constructor adds; every map that was allocated before the
    call, the caller's [attrs] among them, is as it was. *)
Theorem SetAttrs_copy_attrs (id : Z) (frame : string) (attrs : option loc)
    (h : Heap) :
  (exists l h',
     SetRowAttrs id frame attrs h =
       (Ok (Some (mkCall "SetRowAttrs" (Some l) [])), h') /\
     h !! l = None /\
     h' !! l = Some (<["columnID" := VString frame]>
                       (<["id" := VUint64 id]> (entries h attrs))) /\
     (forall l0, is_Some (h !! l0) -> h' !! l0 = h !! l0)) /\
  (exists l h',
     SetColumnAttrs id attrs h =
       (Ok (Some (mkCall "SetColumnAttrs" (Some l) [])), h') /\
     h !! l = None /\
     h' !! l = Some (<["id" := VUint64 id]> (entries h attrs)) /\
     (forall l0, is_Some (h !! l0) -> h' !! l0 = h !! l0)).
Proof.
  assert (h !! fresh (dom h) = None) as Hfresh.
  { apply not_elem_of_dom, is_fresh. }
  split.
  - eexists _, _. split; [apply SetRowAttrs_run|]. split; [done|].
    split; [apply lookup_insert_eq|]. apply lookup_insert_fresh.
  - eexists _, _. split; [apply SetColumnAttrs_run|]. split; [done|].
    split; [apply lookup_insert_eq|]. apply lookup_insert_fresh.
Qed.

Lemma SetAttrs_copy_attrs_witness :
  let h : Heap := {[ 1%positive := {[ "color" := VString "red" ]} ]} in
  (exists l h',
     SetRowAttrs 7 "fbench" (Some 1%positive) h =
       (Ok (Some (mkCall "SetRowAttrs" (Some l) [])), h') /\
     h' !! 1%positive = h !! 1%positive) /\
  (exists l h',
     SetColumnAttrs 7 (Some 1%positive) h =
       (Ok (Some (mkCall "SetColumnAttrs" (Some l) [])), h') /\
     h' !! 1%positive = h !! 1%positive).
Proof.
  intros h.
  destruct (SetAttrs_copy_attrs 7 "fbench" (Some 1%positive) h)
    as [(l & h' & Hrun & _ & _ & Hsame) (l2 & h2 & Hrun2 & _ & _ & Hsame2)].
  split.
  - exists l, h'. split; [exact Hrun|]. apply Hsame. by eexists.
  - exists l2, h2. split; [exact Hrun2|]. apply Hsame2. by eexists.
Defined.

(** ** RandomBitmapCall *)

Lemma wrap64_eqm z : exists k, wrap64 z = z + k * 2^64.
Proof.
  unfold wrap64. exists (- ((z + 2^63) / 2^64)).
  pose proof (Z.div_mod (z + 2^63) (2^64) ltac:(lia)). lia.
Qed.

Lemma wrap64_add_mul z k : wrap64 (z + k * 2^64) = wrap64 z.
Proof.
  unfold wrap64. f_equal.
  replace (z + k * 2^64 + 2^63) with (z + 2^63 + k * 2^64) by lia.
  apply Z.mod_add. lia.
Qed.

Lemma id_width_small idmin idmax :
  0 <= idmax - idmin < 2^63 -> id_width idmin idmax = idmax - idmin.
Proof.
  intros H. unfold id_width, sub64.
  destruct (wrap64_eqm idmax) as [k1 ->]. destruct (wrap64_eqm idmin) as [k2 ->].
  replace (idmax + k1 * 2^64 - (idmin + k2 * 2^64))
    with ((idmax - idmin) + (k1 - k2) * 2^64) by lia.
  rewrite wrap64_add_mul. apply wrap64_id. unfold in_int64. lia.
Qed.

Lemma rowID_in_range idmin idmax r :
  in_uint64 idmin -> in_uint64 idmax -> 0 <= r < idmax - idmin ->
  idmin <= wrapU64 (add64 r (wrap64 idmin)) < idmax.
Proof.
  unfold in_uint64, add64. intros Hmin Hmax Hr.
  rewrite wrapU64_wrap64.
  destruct (wrap64_eqm idmin) as [k ->].
  unfold wrapU64.
  replace (r + (idmin + k * 2^64)) with (r + idmin + k * 2^64) by lia.
  rewrite Z.mod_add by lia. rewrite Z.mod_small by lia. lia.
Qed.

Section RandomBitmapCallFacts.
Context {S : Type} `{!Source S} {rt : Runtime}.

Lemma triple_on_R {A} (m : M S A) (st : GenWorld S) Q E :
  triple m (R (gen st))
    (fun a r =>
       Q a (mkGenWorld
              (mkQueryGenerator (IDToFrameFn (gen st)) r (Frames (gen st)))
              (heap st)))
    (fun r =>
       E (mkGenWorld
            (mkQueryGenerator (IDToFrameFn (gen st)) r (Frames (gen st)))
            (heap st))) ->
  triple (on_R m) st Q E.
Proof. intros H. unfold on_R. by apply triple_zoom. Qed.

(** The leaf: a "Bitmap" node on a new argument map, with a row id
    drawn below the width of the id range; a panic exactly when that
    width, as [Int63n] receives it, is not positive. *)
Lemma RandomBitmapCall_leaf_triple idmin idmax (st : GenWorld S) :
  triple (RandomBitmapCall_leaf idmin idmax) st
    (fun p st' =>
       exists r l m,
         p = Some (mkCall "Bitmap" (Some l) []) /\
         0 <= r < id_width idmin idmax /\
         heap st !! l = None /\ heap st' !! l = Some m /\
         m !! "rowID" = Some (VUint64 (wrapU64 (add64 r (wrap64 idmin)))) /\
         m !! "frame" =
           Some (VString (IDToFrameFn (gen st)
                            (wrapU64 (add64 r (wrap64 idmin))))))
    (fun st' => id_width idmin idmax <= 0).
Proof.
  unfold RandomBitmapCall_leaf. fold (id_width idmin idmax).
  apply triple_bind. apply triple_on_R.
  destruct (Z.leb_spec (id_width idmin idmax) 0) as [Hle|Hgt].
  - by apply triple_Int63n_panic.
  - apply triple_Int63n; [done|]. intros r s' Hr.
    unfold triple, bind, gets, on_heap, zoom, Bitmap, new_map, ret.
    cbn [heap gen IDToFrameFn].
    eexists r, _, _. split; [reflexivity|]. split; [done|].
    split; [apply not_elem_of_dom, is_fresh|].
    split; [apply lookup_insert_eq|]. split; [done|].
    by rewrite lookup_insert_ne.
Qed.

(** A call of [RandomBitmapCall] at any depth returns a non-nil tree in
    which every set operation has an allowed child count; it panics only
    when the width of the id range, as [Int63n] receives it, is not
    positive, or when [maxargs - 1] children are more than [make]
    accepts. *)
Lemma RandomBitmapCall_from_triple d maxargs idmin idmax :
  forall st : GenWorld S,
    triple (RandomBitmapCall_from d maxargs idmin idmax) st
      (fun p _ => child_ok maxargs p)
      (fun _ => id_width idmin idmax <= 0 \/ maxSliceLen < maxargs - 1).
Proof.
  set (E := fun _ : GenWorld S =>
              id_width idmin idmax <= 0 \/ maxSliceLen < maxargs - 1).
  assert (forall st : GenWorld S,
            triple (RandomBitmapCall_leaf idmin idmax) st
              (fun p _ => child_ok maxargs p) E) as Hleaf.
  { intros st. eapply triple_mono; [| |apply RandomBitmapCall_leaf_triple].
    - intros p st' (r & l & m & -> & _). by eexists.
    - intros st' Hw. by left. }
  induction d as [|d IH]; intros st; [apply Hleaf|].
  cbn [RandomBitmapCall_from].
  apply triple_bind. apply triple_on_R. apply triple_Intn; [lia|].
  intros call s' Hcall.
  destruct (Z.eqb_spec call 0) as [->|Hne]; [apply Hleaf|].
  apply triple_bind.
  apply (triple_mono _ _
           (fun numargs (_ : GenWorld S) =>
              0 <= numargs /\ (numargs = 2 \/ numargs <= maxargs - 1) /\
              arity_ok maxargs (Z.of_nat (Z.to_nat numargs)) = true)
           _ (fun _ => False)); [|done|].
  2:{ unfold arity_ok. destruct (Z.leb_spec maxargs 2).
      - apply triple_ret. split; [lia|]. split; [by left|done].
      - apply triple_bind. apply triple_on_R. apply triple_Intn; [lia|].
        intros r s'' Hr. apply triple_ret. split; [lia|]. split; [lia|].
        rewrite Z2Nat.id by lia. apply andb_true_iff. split; lia. }
  intros numargs st1 (Hn & Hbound & Harity).
  apply triple_bind. apply triple_make_slice_any.
  { intros Hbad. right. pose proof maxSliceLen_lower. lia. }
  intros _.
  apply triple_bind.
  eapply triple_mono; [| |
    apply (triple_for_loop
             (fun j (calls : list (option Call)) (_ : GenWorld S) =>
                length calls = Z.to_nat numargs /\
                Forall (child_ok maxargs) (take (Z.to_nat j) calls))
             E)].
  - intros calls st2 [Hlen HF]. cbv beta.
    rewrite Z.add_0_l, Nat2Z.id in HF. rewrite take_ge in HF by lia.
    assert (forall name,
              is_set_op name = true ->
              child_ok maxargs (Some (mkCall name None calls))) as Hnode.
    { intros name Hname. eexists. split; [done|]. cbn [fanout_ok].
      rewrite Hname, Hlen, Harity. cbn [negb orb andb].
      apply forallb_forall. intros p Hp.
      rewrite Forall_forall in HF. apply list_elem_of_In in Hp.
      by destruct (HF p Hp) as (c & -> & Hc). }
    destruct (Z.eqb_spec call 1); [by apply triple_ret, Hnode|].
    destruct (Z.eqb_spec call 2); [by apply triple_ret, Hnode|].
    destruct (Z.eqb_spec call 3); [by apply triple_ret, Hnode|].
    lia.
  - done.
  - split; [by rewrite length_replicate|]. simpl. constructor.
  - intros j calls st2 Hj [Hlen HF].
    apply triple_bind.
    eapply triple_mono; [| |apply IH]; [|done].
    intros p st3 Hp. cbv beta.
    apply triple_set_index; [lia|].
    split; [by rewrite length_insert|].
    replace (Z.to_nat (j + 1)) with (Datatypes.S (Z.to_nat j)) by lia.
    erewrite take_S_r by (apply list_lookup_insert_eq; lia).
    rewrite take_insert_ge by lia.
    apply Forall_app. split; [done|]. by apply Forall_singleton.
Qed.

(** [RandomBitmapCall] as the source states it. *)
Lemma RandomBitmapCall_unfold depth maxargs idmin idmax :
  RandomBitmapCall depth maxargs idmin idmax =
  if depth <=? 1 then RandomBitmapCall_leaf idmin idmax
  else
    let* call := on_R (Intn 4) in
    if call =? 0 then RandomBitmapCall 1 0 idmin idmax
    else
      let* numargs :=
        (if maxargs <=? 2 then ret 2
         else let* r := on_R (Intn (maxargs - 2)) in ret (r + 2)) in
      let* calls := make_slice None numargs in
      let* calls :=
        for_loop (Z.to_nat numargs) 0
          (fun i calls =>
             let* c := RandomBitmapCall (depth - 1) maxargs idmin idmax in
             set_index calls i c)
          calls in
      if call =? 1 then ret (Difference calls)
      else if call =? 2 then ret (Intersect calls)
      else if call =? 3 then ret (Union calls)
      else ret None.
Proof.
  unfold RandomBitmapCall.
  destruct (Z.leb_spec depth 1) as [Hle|Hgt].
  - by replace (Z.to_nat (depth - 1)) with O by lia.
  - replace (Z.to_nat (depth - 1))
      with (Datatypes.S (Z.to_nat (depth - 1 - 1))) by lia.
    reflexivity.
Qed.

End RandomBitmapCallFacts.

Lemma valid_id_width idmin idmax :
  idmin < idmax -> idmax - idmin < 2^63 -> 0 < id_width idmin idmax.
Proof. intros H1 H2. rewrite id_width_small by lia. lia. Qed.

(** On an id range of positive width, and with [maxargs - 1] a length
    that [make] accepts, every call returns. *)
Lemma RandomBitmapCall_returns {S} `{!Source S} {rt : Runtime}
    depth maxargs idmin idmax (st : GenWorld S) :
  0 < id_width idmin idmax -> maxargs - 1 <= maxSliceLen ->
  returns (RandomBitmapCall depth maxargs idmin idmax) st
    (fun p _ => child_ok maxargs p).
Proof.
  intros Hw Hm. unfold returns, RandomBitmapCall.
  eapply triple_mono; [| |apply RandomBitmapCall_from_triple]; [done|].
  simpl. lia.
Qed.

(** The draws of a tape. *)
Lemma triple_on_R_tape n v t (st : GenWorld (list Z)) Q E :
  R (gen st) = v :: t -> 0 < n ->
  Q (v mod n)
    (mkGenWorld (mkQueryGenerator (IDToFrameFn (gen st)) t (Frames (gen st)))
       (heap st)) ->
  triple (on_R (Intn n)) st Q E.
Proof.
  intros HR Hn HQ. apply triple_on_R. unfold triple, Intn.
  destruct (Z.leb_spec n 0); [lia|]. rewrite HR. done.
Qed.

(** The runs used against C5: an empty id range, and one that is
    [2^63] wide. *)
Lemma RandomBitmapCall_leaf_panic_runs :
  let st := mkGenWorld (NewQueryGenerator (S := list Z) 42) ∅ in
  RandomBitmapCall 1 0 5 5 st = (Panic "invalid argument to Int63n", st) /\
  RandomBitmapCall 1 0 0 (2^63) st = (Panic "invalid argument to Int63n", st).
Proof. split; vm_compute; reflexivity. Qed.

(** C5, as stated, fails: [idMin = idMax] satisfies [idMin <= idMax], and
    the call panics in [Int63n]. *)
Lemma RandomBitmapCall_empty_id_range_panics :
  ~ (forall depth maxargs idmin idmax (st : GenWorld (list Z)),
       in_uint64 idmin -> in_uint64 idmax ->
       idmin <= idmax -> depth <= 1 ->
       exists c st',
         RandomBitmapCall depth maxargs idmin idmax st = (Ok (Some c), st') /\
         Name c = "Bitmap").
Proof.
  intros H.
  destruct (H 1 0 5 5 (mkGenWorld (NewQueryGenerator (S := list Z) 42) ∅))
    as (c & st' & Hrun & _); try (unfold in_uint64; lia).
  rewrite (proj1 RandomBitmapCall_leaf_panic_runs) in Hrun. discriminate.
Qed.

(** C5, amended: for [depth <= 1] and a non-empty id range
    [idMin < idMax] less than [2^63] wide, [RandomBitmapCall] returns a
    "Bitmap" node without children whose argument map holds a [rowID] in
    [[idMin, idMax)] and the frame that [IDToFrameFn] gives for it. *)
Theorem RandomBitmapCall_leaf_in_range {S} `{!Source S} {rt : Runtime}
    depth maxargs idmin idmax (st : GenWorld S) :
  depth <= 1 ->
  in_uint64 idmin -> in_uint64 idmax ->
  idmin < idmax -> idmax - idmin < 2^63 ->
  exists rowID l m st',
    RandomBitmapCall depth maxargs idmin idmax st =
      (Ok (Some (mkCall "Bitmap" (Some l) [])), st') /\
    idmin <= rowID < idmax /\
    heap st' !! l = Some m /\
    m !! "rowID" = Some (VUint64 rowID) /\
    m !! "frame" = Some (VString (IDToFrameFn (gen st) rowID)).
Proof.
  intros Hd Hmin Hmax Hlt Hw.
  unfold RandomBitmapCall. replace (Z.to_nat (depth - 1)) with O by lia.
  cbn [RandomBitmapCall_from].
  pose proof (RandomBitmapCall_leaf_triple idmin idmax st) as H.
  unfold triple in H.
  destruct (RandomBitmapCall_leaf idmin idmax st) as [[p|e] st'].
  - destruct H as (r & l & m & -> & Hr & _ & Hl & Hrow & Hframe).
    rewrite id_width_small in Hr by lia.
    exists (wrapU64 (add64 r (wrap64 idmin))), l, m, st'.
    split; [done|]. split; [by apply rowID_in_range|done].
  - rewrite id_width_small in H by lia. lia.
Qed.

Lemma RandomBitmapCall_leaf_in_range_witness :
  let st := mkGenWorld (NewQueryGenerator (S := list Z) 42) ∅ in
  exists rowID l m st',
    RandomBitmapCall 1 0 10 20 st =
      (Ok (Some (mkCall "Bitmap" (Some l) [])), st') /\
    10 <= rowID < 20 /\
    heap st' !! l = Some m /\
    m !! "rowID" = Some (VUint64 rowID) /\
    m !! "frame" = Some (VString (IDToFrameFn (gen st) rowID)).
Proof.
  intros st.
  apply (RandomBitmapCall_leaf_in_range (S := list Z) 1 0 10 20 st);
    unfold in_uint64; lia.
Defined.

(** C10: [RandomBitmapCall] never returns [nil]: whenever a call
    returns, whatever the depth, [maxargs] and the id range, it returns a
    pointer to a call node.  The selector drawn by [Intn(4)] is 1, 2 or 3
    where the switch is reached, so the [return nil] after it is never
    taken. *)
Theorem RandomBitmapCall_never_nil {S} `{!Source S} {rt : Runtime}
    depth maxargs idmin idmax (st : GenWorld S) p st' :
  RandomBitmapCall depth maxargs idmin idmax st = (Ok p, st') ->
  is_Some p.
Proof.
  intros Hrun.
  pose proof (RandomBitmapCall_from_triple (Z.to_nat (depth - 1)) maxargs
                idmin idmax st) as H.
  apply (triple_eq _ _ _ _ _ _ Hrun) in H.
  destruct H as (c & -> & _). by eexists.
Qed.

Lemma RandomBitmapCall_never_nil_witness :
  is_Some
    (Some (mkCall "Union" None
             [Some (mkCall "Bitmap" (Some 1%positive) []);
              Some (mkCall "Bitmap" (Some 2%positive) [])])).
Proof.
  eapply (RandomBitmapCall_never_nil (S := list Z) 2 3 10 20
            (mkGenWorld
               (mkQueryGenerator (fun _ => "fbench") [3; 0; 4; 7] ["fbench"])
               ∅)).
  vm_compute. reflexivity.
Defined.

(** Every child count from 2 to [maxargs - 1] is reached: on a tape that
    starts with 1 and [k - 2], the call builds a "Difference" node with
    [k] children. *)
Lemma RandomBitmapCall_reaches_count {rt : Runtime}
    depth maxargs idmin idmax k :
  2 <= depth -> 2 < maxargs -> 2 <= k < maxargs ->
  maxargs - 1 <= maxSliceLen ->
  idmin < idmax -> idmax - idmin < 2^63 ->
  exists calls st',
    RandomBitmapCall depth maxargs idmin idmax
      (mkGenWorld
         (mkQueryGenerator (fun _ => "fbench") [1; k - 2] ["fbench"]) ∅) =
    (Ok (Some (mkCall "Difference" None calls)), st') /\
    Z.of_nat (length calls) = k.
Proof.
  intros Hd Hm Hk Hmake Hlt Hw.
  set (st := mkGenWorld _ _).
  assert (returns (RandomBitmapCall depth maxargs idmin idmax) st
            (fun p _ =>
               exists calls,
                 p = Some (mkCall "Difference" None calls) /\
                 Z.of_nat (length calls) = k)) as H.
  { unfold returns, RandomBitmapCall.
    replace (Z.to_nat (depth - 1))
      with (Datatypes.S (Z.to_nat (depth - 2))) by lia.
    cbn [RandomBitmapCall_from].
    apply triple_bind_intro. eapply triple_on_R_tape; [reflexivity|lia|].
    change (1 mod 4) with 1. change (1 =? 0) with false. cbv iota.
    apply triple_bind_intro. destruct (Z.leb_spec maxargs 2); [lia|].
    apply triple_bind_intro. eapply triple_on_R_tape; [reflexivity|lia|].
    rewrite Z.mod_small by lia. apply triple_ret.
    replace (k - 2 + 2) with k by lia.
    apply triple_bind_intro. apply triple_make_slice; [lia|].
    apply triple_bind_intro.
    eapply triple_mono; [| |
      apply (triple_for_loop
               (fun (_ : Z) (calls : list (option Call))
                    (_ : GenWorld (list Z)) =>
                  length calls = Z.to_nat k)
               (fun _ => False))].
    - intros calls st2 Hlen. cbv beta in *.
      change (1 =? 1) with true. cbv iota.
      apply triple_ret. exists calls. split; [done|lia].
    - done.
    - by rewrite length_replicate.
    - intros j calls st2 Hj Hlen. cbv beta in Hlen. apply triple_bind_intro.
      eapply triple_mono; [| |apply RandomBitmapCall_from_triple].
      + intros p st3 _. cbv beta.
        apply triple_set_index; [lia|]. by rewrite length_insert.
      + intros st3 Hbad. cbv beta in Hbad.
        pose proof (valid_id_width _ _ Hlt Hw). lia. }
  unfold returns, triple in H.
  destruct (RandomBitmapCall depth maxargs idmin idmax st) as [[p|e] st'];
    [|done].
  destruct H as (calls & -> & Hlen). by exists calls, st'.
Qed.


(** The child count of the root is the number drawn by
    [Intn(maxargs-2)], plus 2. *)
Lemma RandomBitmapCall_root_count {S} `{!Source S} {rt : Runtime}
    depth maxargs idmin idmax (st : GenWorld S) call r1 r r2 c st' :
  2 <= depth -> 2 < maxargs ->
  draw 4 (R (gen st)) = (call, r1) -> call <> 0 ->
  draw (maxargs - 2) r1 = (r, r2) ->
  RandomBitmapCall depth maxargs idmin idmax st = (Ok (Some c), st') ->
  is_set_op (Name c) = true /\ Z.of_nat (length (Children c)) = r + 2.
Proof.
  intros Hd Hm Hcall Hne Hr Hrun.
  pose proof (draw_range 4 (R (gen st)) ltac:(lia)) as Hcall4.
  pose proof (draw_range (maxargs - 2) r1 ltac:(lia)) as Hr4.
  rewrite Hcall in Hcall4. rewrite Hr in Hr4. cbn [fst] in Hcall4, Hr4.
  unfold RandomBitmapCall in Hrun.
  replace (Z.to_nat (depth - 1))
    with (Datatypes.S (Z.to_nat (depth - 2))) in Hrun by lia.
  cbn [RandomBitmapCall_from] in Hrun.
  unfold bind at 1 in Hrun. unfold on_R at 1, zoom, Intn in Hrun.
  cbn [Z.leb Z.compare] in Hrun. rewrite Hcall in Hrun.
  destruct (Z.eqb_spec call 0) as [|_]; [done|].
  destruct (Z.leb_spec maxargs 2) as [|_]; [lia|].
  unfold bind at 1 2 in Hrun. unfold on_R at 1, zoom, Intn in Hrun.
  destruct (Z.leb_spec (maxargs - 2) 0) as [|_]; [lia|].
  cbn [gen R] in Hrun. rewrite Hr in Hrun. unfold ret at 1 in Hrun.
  match type of Hrun with ?m ?s = _ =>
    assert (triple m s
              (fun p _ =>
                 forall c, p = Some c ->
                   is_set_op (Name c) = true /\
                   Z.of_nat (length (Children c)) = r + 2)
              (fun _ => True)) as H
  end.
  { apply triple_bind. apply triple_make_slice_any; [done|]. intros Hlen.
    apply triple_bind.
    eapply triple_mono; [| |
      apply (triple_for_loop
               (fun (_ : Z) (calls : list (option Call)) (_ : GenWorld S) =>
                  length calls = Z.to_nat (r + 2))
               (fun _ => True))].
    - intros calls st2 Hcalls. cbv beta.
      assert (forall name,
                is_set_op name = true ->
                forall c0, Some (mkCall name None calls) = Some c0 ->
                  is_set_op (Name c0) = true /\
                  Z.of_nat (length (Children c0)) = r + 2) as Hnode.
      { intros name Hname c0 [= <-]. cbn [Name Children].
        split; [done|]. rewrite Hcalls. lia. }
      destruct (Z.eqb_spec call 1); [by apply triple_ret, Hnode|].
      destruct (Z.eqb_spec call 2); [by apply triple_ret, Hnode|].
      destruct (Z.eqb_spec call 3); [by apply triple_ret, Hnode|].
      lia.
    - done.
    - by rewrite length_replicate.
    - intros j calls st2 Hj Hcalls. cbv beta in Hcalls.
      apply triple_bind.
      eapply triple_mono; [| |apply RandomBitmapCall_from_triple]; [|done].
      intros p st3 _. cbv beta.
      apply triple_set_index_any; [done|]. intros _.
      by rewrite length_insert. }
  apply (triple_eq _ _ _ _ _ _ Hrun) in H. by apply H.
Qed.



(** * Further properties *)

(** ** GenerateImportCSV: the count, the ranges, the writer *)

(** X1: the number returned is the number of lines written, as an [int]:
    when [GenerateImportCSV] returns [n], it has appended some lines to the
    writer and [n] is their number wrapped to 64 bits, so their number
    itself when that is below [2^63]. *)
Theorem GenerateImportCSV_count_is_lines {S} `{!Source S} {rt : Runtime}
    base max baseP maxP minB maxB seed ro (w0 : Writer) n w' :
  GenerateImportCSV base max baseP maxP minB maxB seed ro w0 = (Ok n, w') ->
  exists out : list string,
    w' = w0 ++ out /\
    n = wrap64 (Z.of_nat (length out)) /\
    (Z.of_nat (length out) < 2^63 -> n = Z.of_nat (length out)).
Proof.
  intros Hrun.
  pose proof (GenerateImportCSV_written base max baseP maxP minB maxB seed ro
                w0) as H.
  apply (triple_eq _ _ _ _ _ _ Hrun) in H.
  destruct H as (ids & groups & _ & _ & _ & -> & ->).
  exists (rows_of groups). split; [done|]. split; [done|].
  intros Hsmall. apply wrap64_id. unfold in_int64. lia.
Qed.

Lemma GenerateImportCSV_count_is_lines_witness :
  exists out : list string,
    [row_line 0 27; row_line 1 53; row_line 2 44] = [] ++ out /\
    3 = wrap64 (Z.of_nat (length out)) /\
    (Z.of_nat (length out) < 2^63 -> 3 = Z.of_nat (length out)).
Proof.
  apply (GenerateImportCSV_count_is_lines (S := list Z) 0 3 0 100 1 2 42 false
           []).
  vm_compute. reflexivity.
Defined.

Lemma trace_ok_ranges {rt : Runtime}
    base max baseP maxP minB maxB ro ids groups :
  valid_ranges base max baseP maxP minB maxB ro ->
  Z.of_nat (length groups) <= Z.max 0 (max - base) ->
  trace_ok base baseP maxP minB maxB ro ids groups ->
  Forall (fun g : Z * list Z =>
            minB <= Z.of_nat (length g.2) < maxB /\
            Forall (fun p => baseP <= p < maxP) g.2 /\
            (ro = false -> base <= g.1 < max)) groups.
Proof.
  intros (HminB & HmaxB & HbP & HmP & HP & _) Hlen Htr.
  pose proof maxSliceLen_upper as Hupper.
  apply Forall_forall. intros g Hg.
  apply list_elem_of_lookup in Hg as [k Hk].
  destruct (Forall2_lookup_r _ _ _ _ _ Htr Hk) as (i & Hi & Hid & Hn & Hps & _).
  apply lookup_seqZ in Hi as [-> Hi].
  split; [|split].
  - apply drawn_range in Hn; [done|unfold in_int64; lia..].
  - eapply Forall_impl; [exact Hps|]. intros p Hp.
    by apply drawn_range in Hp.
  - intros ->. unfold group_id in Hid. injection Hid as <-. lia.
Qed.



(** X3: the writer is only appended to, and what is appended and returned
    does not depend on what the writer holds: a call on a writer that
    holds [w0] ends with [w0] followed by what the same call writes to an
    empty writer, with the same result, be it a count or a panic. *)
Theorem GenerateImportCSV_appends {S} `{!Source S} {rt : Runtime}
    base max baseP maxP minB maxB seed ro (w0 : Writer) :
  exists r (out : list string),
    GenerateImportCSV base max baseP maxP minB maxB seed ro [] = (r, out) /\
    GenerateImportCSV base max baseP maxP minB maxB seed ro w0 = (r, w0 ++ out).
Proof.
  rewrite (GenerateImportCSV_frame _ _ _ _ _ _ _ _ w0).
  destruct (GenerateImportCSV base max baseP maxP minB maxB seed ro [])
    as [r out].
  by exists r, out.
Qed.

(** X4: the slices are made before the loop, so a negative
    [maxBitsPerMap] makes the call panic in [make] whatever the other
    arguments are, with empty ranges and with [randomOrder] too, and so
    does, under [randomOrder], a range of bitmap ids whose width is
    negative as an [int] ([Perm]); nothing is written. *)
Theorem GenerateImportCSV_makeslice_panics {S} `{!Source S} {rt : Runtime}
    base max baseP maxP minB maxB seed ro (w0 : Writer) :
  maxB < 0 \/ (ro = true /\ sub64 max base < 0) ->
  GenerateImportCSV base max baseP maxP minB maxB seed ro w0 =
  (Panic "makeslice: len out of range", w0).
Proof.
  intros Hbad. unfold GenerateImportCSV, generate, bind.
  destruct ro.
  - unfold on_rng, zoom. cbn [rng w].
    destruct (decide (0 <= sub64 max base <= maxSliceLen)) as [Hwidth|Hwidth].
    + pose proof (Perm_returns (sub64 max base) (NewSource seed) Hwidth) as HP.
      unfold returns, triple in HP.
      destruct (Perm (sub64 max base) (NewSource seed)) as [[ids|e] r'];
        [|done].
      by rewrite make_slice_panics by lia.
    + unfold Perm, bind. by rewrite make_slice_panics by lia.
  - unfold ret at 1. rewrite make_slice_panics; [done|].
    destruct Hbad as [?|[? _]]; [by left|done].
Qed.

Lemma GenerateImportCSV_makeslice_panics_witness :
  GenerateImportCSV (S := list Z) 5 5 0 100 (-3) (-1) 42 false ["x"] =
    (Panic "makeslice: len out of range", ["x"]) /\
  GenerateImportCSV (S := list Z) 0 3 0 100 (-3) (-1) 42 true ["x"] =
    (Panic "makeslice: len out of range", ["x"]) /\
  GenerateImportCSV (S := list Z) 7 5 0 100 1 2 42 true ["x"] =
    (Panic "makeslice: len out of range", ["x"]).
Proof.
  split; [|split].
  - apply (GenerateImportCSV_makeslice_panics (S := list Z)).
    left. lia.
  - apply (GenerateImportCSV_makeslice_panics (S := list Z)).
    left. lia.
  - apply (GenerateImportCSV_makeslice_panics (S := list Z)).
    right. split; [reflexivity|]. vm_compute. reflexivity.
Defined.



(** ** Import.Init and Import.Run *)

Section InitFacts.
Context {S : Type} `{!Source S} {rt : Runtime}.

(** [Init] from [ioutil.TempFile] on, outcome by outcome. *)
Lemma Init_generate_run (b : Import) (f : FS) :
  Init_generate (mkInitSt b f) =
  match tempErr f with
  | Some e => (Ok (Some e), mkInitSt b f)
  | None =>
    let run :=
      GenerateImportCSV (BaseBitmapID b) (MaxBitmapID b) (BaseProfileID b)
        (MaxProfileID b) (MinBitsPerMap b) (MaxBitsPerMap b) (Seed b)
        (RandomBitmapOrder b) [] in
    let f' :=
      mkFS (<[tempName f := run.2]> (files f)) (tempName f) None (closeErr f) in
    match run.1 with
    | Ok num =>
      (Ok (closeErr f),
       mkInitSt (set_Paths [tempName f] (set_numbits num b)) f')
    | Panic e => (Panic e, mkInitSt b f')
    end
  end.
Proof.
  unfold Init_generate, bind, TempFile. cbn [fs imp tempErr].
  destruct (tempErr f) as [e|]; [done|].
  unfold gets, on_file, zoom, on_imp, modify, Close.
  cbn [fs imp files tempName tempErr closeErr].
  rewrite lookup_insert_eq. cbn [default].
  destruct (GenerateImportCSV _ _ _ _ _ _ _ _ _) as [[num|e] rows];
    cbn [fst snd fs imp files tempName tempErr closeErr];
    by rewrite insert_insert_eq.
Qed.

Lemma Init_generate_same_config (st : InitSt) r st' :
  Init_generate st = (r, st') -> same_config (imp st) (imp st').
Proof.
  destruct st as [b f]. rewrite Init_generate_run.
  destruct (tempErr f) as [e|].
  - intros [= <- <-]. by repeat split.
  - cbv zeta. destruct (GenerateImportCSV _ _ _ _ _ _ _ _ _) as [[num|e] rows];
      cbn [fst snd]; intros [= <- <-]; by repeat split.
Qed.

(** The ranges and the seed that [Init] leaves in the receiver, in each
    of the three modes, whatever happens afterwards. *)
Lemma Import_Init_ranges (b : Import) (f : FS) host hosts agentNum r st' :
  Import_Init (host :: hosts) agentNum (mkInitSt b f) = (r, st') ->
  Seed (imp st') = add64 (Seed b) agentNum /\
  Host (imp st') = host /\
  (AgentControls b = "height" ->
   let n := sub64 (MaxBitmapID b) (BaseBitmapID b) in
   BaseBitmapID (imp st') = add64 (BaseBitmapID b) (mul64 n agentNum) /\
   MaxBitmapID (imp st') = add64 (BaseBitmapID (imp st')) n /\
   BaseProfileID (imp st') = BaseProfileID b /\
   MaxProfileID (imp st') = MaxProfileID b) /\
  (AgentControls b = "width" ->
   let n := sub64 (MaxProfileID b) (BaseProfileID b) in
   BaseProfileID (imp st') = add64 (BaseProfileID b) (mul64 n agentNum) /\
   MaxProfileID (imp st') = add64 (BaseProfileID (imp st')) n /\
   BaseBitmapID (imp st') = BaseBitmapID b /\
   MaxBitmapID (imp st') = MaxBitmapID b) /\
  (AgentControls b <> "height" -> AgentControls b <> "width" ->
   BaseBitmapID (imp st') = BaseBitmapID b /\
   MaxBitmapID (imp st') = MaxBitmapID b /\
   BaseProfileID (imp st') = BaseProfileID b /\
   MaxProfileID (imp st') = MaxProfileID b).
Proof.
  unfold Import_Init, bind, on_imp, modify, gets.
  cbn [imp fs set_Name set_Host set_Seed AgentControls].
  destruct (decide (AgentControls b = "height")) as [Hh|Hh];
    [|destruct (decide (AgentControls b = "width")) as [Hw|Hw];
      [|destruct (decide (AgentControls b = "")) as [He|He]]].
  4:{ intros [= <- <-]. cbn. repeat split; done. }
  all: cbn [imp fs set_BitmapIDs set_ProfileIDs BaseBitmapID MaxBitmapID
              BaseProfileID MaxProfileID Seed];
    intros Hgen; apply Init_generate_same_config in Hgen;
    destruct Hgen as (_ & HbB & HmB & HbP & HmP & _ & _ & _ & _ & Hseed
                      & Hhost & _);
    cbn in HbB, HmB, HbP, HmP, Hseed, Hhost;
    rewrite HbB, HmB, HbP, HmP, Hseed, Hhost;
    repeat split; try done; try congruence.
Qed.

End InitFacts.

Lemma partition_arith base max a :
  in_int64 base -> base <= max -> 0 <= a ->
  (max - base) * (a + 1) < 2^63 ->
  base + (max - base) * (a + 1) < 2^63 ->
  add64 base (mul64 (sub64 max base) a) = base + (max - base) * a /\
  add64 (base + (max - base) * a) (sub64 max base) =
    base + (max - base) * a + (max - base).
Proof.
  unfold in_int64, add64, mul64, sub64. intros Hb Hle Ha Hw Hfit.
  assert (0 <= (max - base) * a <= (max - base) * (a + 1)) by nia.
  assert (max - base <= (max - base) * (a + 1)) by nia.
  rewrite (wrap64_id (max - base)) by (unfold in_int64; lia).
  rewrite (wrap64_id ((max - base) * a)) by (unfold in_int64; lia).
  rewrite !wrap64_id by (unfold in_int64; lia). done.
Qed.

Section InitTheorems.
Context {S : Type} `{!Source S} {rt : Runtime}.

(** X6: the mode "height" gives the agents disjoint ranges of bitmap
    ids of the width configured, one after the other, and leaves the
    range of profile ids alone; "width" does the same to the range of
    profile ids.  For two agents [a1 < a2] started from the same
    configuration, whatever [Init] returns: both ranges have the width
    of the configured one and the range of [a1] ends where that of [a2]
    begins or before.  The configured range must not be reversed, and the
    width times the number of agents and the shifted ranges must fit an
    [int64]. *)
Theorem Import_Init_partitions (b : Import) (f1 f2 : FS) host hosts a1 a2
    r1 st1 r2 st2 :
  0 <= a1 < a2 ->
  Import_Init (host :: hosts) a1 (mkInitSt b f1) = (r1, st1) ->
  Import_Init (host :: hosts) a2 (mkInitSt b f2) = (r2, st2) ->
  (AgentControls b = "height" ->
   in_int64 (BaseBitmapID b) -> BaseBitmapID b <= MaxBitmapID b ->
   (MaxBitmapID b - BaseBitmapID b) * (a2 + 1) < 2^63 ->
   BaseBitmapID b + (MaxBitmapID b - BaseBitmapID b) * (a2 + 1) < 2^63 ->
   MaxBitmapID (imp st1) - BaseBitmapID (imp st1)
     = MaxBitmapID b - BaseBitmapID b /\
   MaxBitmapID (imp st2) - BaseBitmapID (imp st2)
     = MaxBitmapID b - BaseBitmapID b /\
   BaseBitmapID b <= BaseBitmapID (imp st1) /\
   MaxBitmapID (imp st1) <= BaseBitmapID (imp st2) /\
   BaseProfileID (imp st1) = BaseProfileID b /\
   MaxProfileID (imp st1) = MaxProfileID b) /\
  (AgentControls b = "width" ->
   in_int64 (BaseProfileID b) -> BaseProfileID b <= MaxProfileID b ->
   (MaxProfileID b - BaseProfileID b) * (a2 + 1) < 2^63 ->
   BaseProfileID b + (MaxProfileID b - BaseProfileID b) * (a2 + 1) < 2^63 ->
   MaxProfileID (imp st1) - BaseProfileID (imp st1)
     = MaxProfileID b - BaseProfileID b /\
   MaxProfileID (imp st2) - BaseProfileID (imp st2)
     = MaxProfileID b - BaseProfileID b /\
   BaseProfileID b <= BaseProfileID (imp st1) /\
   MaxProfileID (imp st1) <= BaseProfileID (imp st2) /\
   BaseBitmapID (imp st1) = BaseBitmapID b /\
   MaxBitmapID (imp st1) = MaxBitmapID b).
Proof.
  intros Ha Hrun1 Hrun2.
  apply Import_Init_ranges in Hrun1 as (_ & _ & Hh1 & Hw1 & _).
  apply Import_Init_ranges in Hrun2 as (_ & _ & Hh2 & Hw2 & _).
  split.
  - intros Hmode Hb Hle Hwd Hfit.
    destruct (Hh1 Hmode) as (Hb1 & Hm1 & HbP & HmP).
    destruct (Hh2 Hmode) as (Hb2 & Hm2 & _). cbv zeta in *.
    destruct (partition_arith (BaseBitmapID b) (MaxBitmapID b) a1)
      as [E1 E1']; [done|done|lia|nia|nia|].
    destruct (partition_arith (BaseBitmapID b) (MaxBitmapID b) a2)
      as [E2 E2']; [done|done|lia|nia|nia|].
    rewrite E1 in Hb1. rewrite Hb1, E1' in Hm1.
    rewrite E2 in Hb2. rewrite Hb2, E2' in Hm2.
    rewrite Hb1, Hm1, Hb2, Hm2. repeat split; try done; nia.
  - intros Hmode Hb Hle Hwd Hfit.
    destruct (Hw1 Hmode) as (Hb1 & Hm1 & HbB & HmB).
    destruct (Hw2 Hmode) as (Hb2 & Hm2 & _). cbv zeta in *.
    destruct (partition_arith (BaseProfileID b) (MaxProfileID b) a1)
      as [E1 E1']; [done|done|lia|nia|nia|].
    destruct (partition_arith (BaseProfileID b) (MaxProfileID b) a2)
      as [E2 E2']; [done|done|lia|nia|nia|].
    rewrite E1 in Hb1. rewrite Hb1, E1' in Hm1.
    rewrite E2 in Hb2. rewrite Hb2, E2' in Hm2.
    rewrite Hb1, Hm1, Hb2, Hm2. repeat split; try done; nia.
Qed.

End InitTheorems.

Lemma Import_Init_partitions_witness :
  let b := mkImport "" 100 110 0 50 false 1 3 "height" 7 0 "" "i" "f" 100 [] in
  let f := mkFS ∅ "/tmp/import1" None None in
  let o1 := Import_Init (S := list Z) ["localhost:10101"] 1 (mkInitSt b f) in
  let o2 := Import_Init (S := list Z) ["localhost:10101"] 2 (mkInitSt b f) in
  MaxBitmapID (imp o1.2) - BaseBitmapID (imp o1.2) = 110 - 100 /\
  MaxBitmapID (imp o2.2) - BaseBitmapID (imp o2.2) = 110 - 100 /\
  100 <= BaseBitmapID (imp o1.2) /\
  MaxBitmapID (imp o1.2) <= BaseBitmapID (imp o2.2) /\
  BaseProfileID (imp o1.2) = 0 /\
  MaxProfileID (imp o1.2) = 50.
Proof.
  intros b f o1 o2.
  apply (proj1 (Import_Init_partitions (S := list Z) b f f "localhost:10101" []
                  1 2 o1.1 o1.2 o2.1 o2.2 ltac:(lia)
                  (surjective_pairing o1) (surjective_pairing o2)));
    [reflexivity|unfold in_int64; simpl; lia|simpl; lia..].
Defined.

Section InitOutcomes.
Context {S : Type} `{!Source S} {rt : Runtime}.

(** In a supported mode [Init] comes to [ioutil.TempFile] with the
    index, [numbits] and [Paths] it was called with. *)
Lemma Import_Init_supported (b : Import) (f : FS) host hosts agentNum :
  AgentControls b = "height" \/ AgentControls b = "width"
  \/ AgentControls b = "" ->
  exists b',
    Import_Init (host :: hosts) agentNum (mkInitSt b f) =
      Init_generate (mkInitSt b' f) /\
    Import_Index b' = Import_Index b /\
    numbits b' = numbits b /\ Paths b' = Paths b.
Proof.
  intros Hmode.
  unfold Import_Init, bind, on_imp, modify, gets.
  cbn [imp fs set_Name set_Host set_Seed AgentControls].
  destruct (decide (AgentControls b = "height")) as [Hh|Hh];
    [|destruct (decide (AgentControls b = "width")) as [Hw|Hw];
      [|destruct (decide (AgentControls b = "")) as [He|He]]];
    [..|by destruct Hmode as [?|[?|?]]];
    by eexists.
Qed.

Lemma GenerateImportCSV_count_empty base max baseP maxP minB maxB seed ro
    n (rows : Writer) :
  GenerateImportCSV base max baseP maxP minB maxB seed ro [] = (Ok n, rows) ->
  n = wrap64 (Z.of_nat (length rows)).
Proof.
  intros Hrun.
  pose proof (GenerateImportCSV_written base max baseP maxP minB maxB seed ro
                []) as H.
  apply (triple_eq _ _ _ _ _ _ Hrun) in H.
  by destruct H as (ids & groups & _ & _ & _ & -> & ->).
Qed.

(** In a supported mode [Init] comes to [ioutil.TempFile] with the seed
    shifted by the agent number and with the bit counts and the order it
    was called with. *)
Lemma Import_Init_supported_config (b : Import) (f : FS) host hosts agentNum :
  AgentControls b = "height" \/ AgentControls b = "width"
  \/ AgentControls b = "" ->
  exists b',
    Import_Init (host :: hosts) agentNum (mkInitSt b f) =
      Init_generate (mkInitSt b' f) /\
    Seed b' = add64 (Seed b) agentNum /\
    MinBitsPerMap b' = MinBitsPerMap b /\
    MaxBitsPerMap b' = MaxBitsPerMap b /\
    RandomBitmapOrder b' = RandomBitmapOrder b.
Proof.
  intros Hmode.
  unfold Import_Init, bind, on_imp, modify, gets.
  cbn [imp fs set_Name set_Host set_Seed AgentControls].
  destruct (decide (AgentControls b = "height")) as [Hh|Hh];
    [|destruct (decide (AgentControls b = "width")) as [Hw|Hw];
      [|destruct (decide (AgentControls b = "")) as [He|He]]];
    [..|by destruct Hmode as [?|[?|?]]];
    by eexists.
Qed.

(** X7: when [ioutil.TempFile] gives a file and [Init], in a supported
    mode, returns, what it returns is the result of [Close]; the file
    holds exactly the lines that [GenerateImportCSV] writes to an empty
    writer for the ranges, the bit counts, the seed and the order that the
    receiver holds after [Init] (the seed shifted by the agent number, the
    bit counts and the order as configured), and nothing else was
    written; [numbits] is the count that this call returns, the number of
    the lines as an [int], and [Paths] is the name of the file alone. *)
Theorem Import_Init_generates_file (b : Import) (f : FS) host hosts
    agentNum e st' :
  AgentControls b = "height" \/ AgentControls b = "width"
  \/ AgentControls b = "" ->
  tempErr f = None ->
  Import_Init (host :: hosts) agentNum (mkInitSt b f) = (Ok e, st') ->
  exists rows : list string,
    GenerateImportCSV (BaseBitmapID (imp st')) (MaxBitmapID (imp st'))
      (BaseProfileID (imp st')) (MaxProfileID (imp st'))
      (MinBitsPerMap (imp st')) (MaxBitsPerMap (imp st')) (Seed (imp st'))
      (RandomBitmapOrder (imp st')) [] = (Ok (numbits (imp st')), rows) /\
    Seed (imp st') = add64 (Seed b) agentNum /\
    MinBitsPerMap (imp st') = MinBitsPerMap b /\
    MaxBitsPerMap (imp st') = MaxBitsPerMap b /\
    RandomBitmapOrder (imp st') = RandomBitmapOrder b /\
    e = closeErr f /\
    files (fs st') = <[tempName f := rows]> (files f) /\
    Paths (imp st') = [tempName f] /\
    numbits (imp st') = wrap64 (Z.of_nat (length rows)).
Proof.
  intros Hmode Htemp Hrun.
  destruct (Import_Init_supported_config b f host hosts agentNum Hmode)
    as (b' & Heq & Hseed & Hmin & Hmax & Hro).
  rewrite Heq, Init_generate_run, Htemp in Hrun. cbv zeta in Hrun.
  destruct (GenerateImportCSV _ _ _ _ _ _ _ _ _) as [[num|?] rows] eqn:Hgen;
    cbn [fst snd] in Hrun; [|done].
  injection Hrun as <- <-. exists rows.
  cbn [imp fs files set_Paths set_numbits BaseBitmapID MaxBitmapID
         BaseProfileID MaxProfileID MinBitsPerMap MaxBitsPerMap Seed
         RandomBitmapOrder numbits Paths].
  split; [exact Hgen|].
  apply GenerateImportCSV_count_empty in Hgen. by subst num.
Qed.

(** X8: when [ioutil.TempFile] fails, [Init], in a supported mode,
    returns its error: no file is created or written, and [numbits] and
    [Paths] are as before the call. *)
Theorem Import_Init_TempFile_error (b : Import) (f : FS) host hosts
    agentNum err :
  AgentControls b = "height" \/ AgentControls b = "width"
  \/ AgentControls b = "" ->
  tempErr f = Some err ->
  exists st',
    Import_Init (host :: hosts) agentNum (mkInitSt b f) = (Ok (Some err), st') /\
    fs st' = f /\
    numbits (imp st') = numbits b /\ Paths (imp st') = Paths b.
Proof.
  intros Hmode Htemp.
  destruct (Import_Init_supported b f host hosts agentNum Hmode)
    as (b' & Heq & _ & Hn & Hp).
  rewrite Heq, Init_generate_run, Htemp. by eexists.
Qed.

(** X9: [Run] after a successful [Init]: the result holds under
    "numbits" the number of lines of the file that [Init] wrote and
    [Paths] names, under "index" the index of the receiver, and the key
    "error" exactly when the import command fails, with its error. *)
Theorem Import_Run_after_Init (command_Run : Import -> FS -> option string)
    (b : Import) (f : FS) host hosts agentNum st' :
  Import_Init (host :: hosts) agentNum (mkInitSt b f) = (Ok None, st') ->
  exists path rows,
    Paths (imp st') = [path] /\
    files (fs st') !! path = Some rows /\
    Import_Run command_Run st' !! "numbits" =
      Some (VInt (wrap64 (Z.of_nat (length rows)))) /\
    Import_Run command_Run st' !! "index" = Some (VString (Import_Index b)) /\
    Import_Run command_Run st' !! "error" =
      VString <$> command_Run (imp st') (fs st').
Proof.
  intros Hrun.
  assert (AgentControls b = "height" \/ AgentControls b = "width"
          \/ AgentControls b = "") as Hmode.
  { revert Hrun. unfold Import_Init, bind, on_imp, modify, gets.
    cbn [imp fs set_Name set_Host set_Seed AgentControls].
    destruct (decide (AgentControls b = "height")); [by left|].
    destruct (decide (AgentControls b = "width")); [by right; left|].
    destruct (decide (AgentControls b = "")); [by right; right|].
    discriminate. }
  destruct (Import_Init_supported b f host hosts agentNum Hmode)
    as (b' & Heq & Hidx & _).
  rewrite Heq, Init_generate_run in Hrun.
  destruct (tempErr f) as [err|]; [by injection Hrun|].
  cbv zeta in Hrun.
  destruct (GenerateImportCSV _ _ _ _ _ _ _ _ _) as [[num|?] rows] eqn:Hgen;
    cbn [fst snd] in Hrun; [|done].
  injection Hrun as _ <-.
  apply GenerateImportCSV_count_empty in Hgen. subst num.
  exists (tempName f), rows. cbn.
  split; [done|]. split; [apply lookup_insert_eq|].
  unfold Import_Run. cbn.
  destruct (command_Run _ _) as [e|]; cbn; rewrite Hidx; by simplify_map_eq.
Qed.

End InitOutcomes.

Lemma Import_Init_generates_file_witness :
  let b := mkImport "" 0 3 0 100 false 1 2 "" 42 0 "" "i" "f" 100 [] in
  let f := mkFS ∅ "/tmp/import1" None None in
  let o := Import_Init (S := list Z) ["localhost:10101"] 0 (mkInitSt b f) in
  exists rows : list string,
    GenerateImportCSV (S := list Z) (BaseBitmapID (imp o.2))
      (MaxBitmapID (imp o.2)) (BaseProfileID (imp o.2))
      (MaxProfileID (imp o.2)) (MinBitsPerMap (imp o.2))
      (MaxBitsPerMap (imp o.2)) (Seed (imp o.2))
      (RandomBitmapOrder (imp o.2)) [] = (Ok (numbits (imp o.2)), rows) /\
    Seed (imp o.2) = add64 (Seed b) 0 /\
    MinBitsPerMap (imp o.2) = MinBitsPerMap b /\
    MaxBitsPerMap (imp o.2) = MaxBitsPerMap b /\
    RandomBitmapOrder (imp o.2) = RandomBitmapOrder b /\
    None = closeErr f /\
    files (fs o.2) = <[tempName f := rows]> (files f) /\
    Paths (imp o.2) = [tempName f] /\
    numbits (imp o.2) = wrap64 (Z.of_nat (length rows)).
Proof.
  intros b f o.
  apply (Import_Init_generates_file (S := list Z) b f "localhost:10101" [] 0
           None o.2);
    [by right; right|reflexivity|vm_compute; reflexivity].
Defined.

Lemma Import_Init_TempFile_error_witness :
  let b := mkImport "" 0 3 0 100 false 1 2 "width" 42 5 "" "i" "f" 100 ["old"] in
  let f := mkFS ∅ "/tmp/import1" (Some "disk full") None in
  exists st',
    Import_Init (S := list Z) ["localhost:10101"] 0 (mkInitSt b f) =
      (Ok (Some "disk full"), st') /\
    fs st' = f /\ numbits (imp st') = 5 /\ Paths (imp st') = ["old"].
Proof.
  intros b f.
  apply (Import_Init_TempFile_error (S := list Z) b f "localhost:10101" [] 0
           "disk full"); [by right; left|reflexivity].
Defined.

Lemma Import_Run_after_Init_witness :
  let b := mkImport "" 0 3 0 100 false 1 2 "" 42 0 "" "i" "f" 100 [] in
  let f := mkFS ∅ "/tmp/import1" None None in
  let o := Import_Init (S := list Z) ["localhost:10101"] 0 (mkInitSt b f) in
  let cmd := fun (_ : Import) (_ : FS) => Some "import failed" in
  exists path rows,
    Paths (imp o.2) = [path] /\
    files (fs o.2) !! path = Some rows /\
    Import_Run cmd o.2 !! "numbits" =
      Some (VInt (wrap64 (Z.of_nat (length rows)))) /\
    Import_Run cmd o.2 !! "index" = Some (VString "i") /\
    Import_Run cmd o.2 !! "error" = VString <$> cmd (imp o.2) (fs o.2).
Proof.
  intros b f o cmd.
  apply (Import_Run_after_Init (S := list Z) cmd b f "localhost:10101" [] 0
           o.2).
  vm_compute. reflexivity.
Defined.

(** ** The runners: Query.Run, BasicQuery.Run, BasicQuery.Init *)

Lemma Query_Run_loop_succeeds b c k :
  forall n results st,
    (forall i, (calls st <= i < calls st + k)%nat ->
       reply_err (exec c i (Query_Index b) (Query_Query b)) = None) ->
    exists st',
      Query_Run_loop b c k n results st =
        (Ok (mkResult
               (measurements results
                ++ map (measurement_of c b) (seq (calls st) k))
               (err results)), st') /\
      calls st' = (calls st + k)%nat.
Proof.
  induction k as [|k IH]; intros n results st Hok.
  - exists st. cbn. rewrite app_nil_r, Nat.add_0_r. by destruct results.
  - rewrite Query_Run_loop_step. cbv zeta.
    rewrite (Hok (calls st)) by lia.
    match goal with |- context [Query_Run_loop b c k ?n' ?r' ?s'] =>
      destruct (IH n' r' s') as (st' & Hrun & Hcalls) end.
    { cbn [calls]. intros i Hi. apply Hok. lia. }
    exists st'. rewrite Hrun. cbn [calls measurements err Result_Add] in *.
    split; [|lia]. do 2 f_equal. rewrite <- app_assoc. f_equal. cbn.
    f_equal. f_equal. unfold measurement_of. cbv zeta. f_equal. lia.
Qed.

(** X10: with a client that answers every call without an error,
    [Query.Run] makes exactly [Iterations] calls (none when [Iterations]
    is not positive) and returns, without an error, the measurements of
    these calls in order: for each call the time it took and the
    response it gave. *)
Theorem Query_Run_all_succeed (b : Query) (c : Client) (st : RunSt) :
  Query_client b = Some c -> calls st = O ->
  (forall i, (i < Z.to_nat (Query_Iterations b))%nat ->
     reply_err (exec c i (Query_Index b) (Query_Query b)) = None) ->
  exists st',
    Query_Run b st =
      (Ok (mkResult
             (map (measurement_of c b) (seq 0 (Z.to_nat (Query_Iterations b))))
             None), st') /\
    calls st' = Z.to_nat (Query_Iterations b).
Proof.
  intros Hc Hcalls Hok. unfold Query_Run. rewrite Hc.
  destruct (Query_Run_loop_succeeds b c (Z.to_nat (Query_Iterations b)) 0
              NewResult st) as (st' & Hrun & Hcalls').
  { intros i Hi. apply Hok. lia. }
  exists st'. rewrite Hrun, Hcalls. split; [done|]. lia.
Qed.

Lemma Query_Run_all_succeed_witness :
  let c := mkClient (fun n _ _ => mkReply (Some "ok") None (Z.of_nat n + 1)) in
  let b := mkQuery (Some c) "" "Count(Bitmap(rowID=1))" "benchindex" 3 in
  exists st',
    Query_Run b fresh_run =
      (Ok (mkResult (map (measurement_of c b) (seq 0 (Z.to_nat 3))) None),
       st') /\
    calls st' = Z.to_nat 3.
Proof.
  intros c b.
  apply (Query_Run_all_succeed b c fresh_run); reflexivity.
Defined.

Section BasicQueryRuns.
Context {rt : Runtime}.
Variable Call_String : Heap -> Call -> string.

Lemma BasicQuery_Run_loop_succeeds b c bms k :
  Forall has_args bms ->
  forall n results st,
    (forall i index query, (calls st <= i < calls st + k)%nat ->
       reply_err (exec c i index query) = None) ->
    returns (BasicQuery_Run_loop Call_String b c bms k n results) st
      (fun res st' =>
         length (measurements res) = (length (measurements results) + k)%nat /\
         (Forall (fun m : Z * option Response => m.2 = None)
                 (measurements results) ->
          Forall (fun m : Z * option Response => m.2 = None)
                 (measurements res)) /\
         err res = err results /\
         calls st' = (calls st + k)%nat).
Proof.
  intros Hbms. unfold returns.
  induction k as [|k IH]; intros n results st Hok.
  - cbn [BasicQuery_Run_loop]. apply triple_ret.
    split; [lia|]. split; [done|]. split; [done|lia].
  - cbn [BasicQuery_Run_loop]. apply triple_bind_intro.
    eapply triple_mono; [| |by apply set_rowID_loop_returns]; [|done].
    intros [] st1 (Hc & Hn & He). cbv beta.
    unfold triple at 1. unfold bind at 1 2 3 4.
    unfold time_Now, time_Since, gets, ExecuteQuery.
    cbn [fst snd calls now].
    match goal with |- context [exec c ?i ?x ?q] =>
      rewrite (Hok i x q) by lia end.
    match goal with
    |- context [BasicQuery_Run_loop Call_String b c bms k ?n' ?r' ?s'] =>
      specialize (IH n' r' s') end.
    cbn [calls] in IH. unfold triple in IH.
    destruct (BasicQuery_Run_loop _ _ _ _ _ _ _ _) as [[res|e] st'].
    + destruct IH as (Hlen & Hnil & Herr & Hcalls).
      { intros i index query Hi. apply Hok. lia. }
      cbn [Result_Add measurements err] in *.
      rewrite length_app in Hlen. cbn in Hlen.
      split; [lia|]. split; [|split; [done|lia]].
      intros HF. apply Hnil. apply Forall_app. split; [done|].
      by apply Forall_singleton.
    + apply IH. intros i index query Hi. apply Hok. lia.
Qed.



(** X13: the runs that never reach the client.  Without a client both
    [Run] methods return at once a result with their error and no
    measurement; with a client, a negative [NumArgs] makes
    [BasicQuery.Run] panic when it makes its slice of children.  The
    state of the run is untouched in the three cases. *)
Theorem Run_without_calls (q : Query) (bq : BasicQuery) (st : RunSt) :
  (Query_client q = None ->
   Query_Run q st =
   (Ok (mkResult [] (Some "No client set for Query benchmark")), st)) /\
  (BasicQuery_client bq = None ->
   BasicQuery_Run Call_String bq st =
   (Ok (mkResult [] (Some "No client set for BasicQuery")), st)) /\
  (is_Some (BasicQuery_client bq) -> NumArgs bq < 0 ->
   BasicQuery_Run Call_String bq st =
   (Panic "makeslice: len out of range", st)).
Proof.
  split; [|split].
  - intros Hc. unfold Query_Run. by rewrite Hc.
  - intros Hc. unfold BasicQuery_Run. by rewrite Hc.
  - intros [c Hc] Hn. unfold BasicQuery_Run, bind. rewrite Hc.
    by rewrite make_slice_panics by lia.
Qed.

End BasicQueryRuns.



Lemma Run_without_calls_witness :
  let q := mkQuery None "" "Count(Bitmap(rowID=1))" "benchindex" 5 in
  let bq := mkBasicQuery (Some third_call_fails) "" 10 4 (-1) "Intersect"
              "benchindex" "fbench" in
  Query_Run q fresh_run =
    (Ok (mkResult [] (Some "No client set for Query benchmark")), fresh_run) /\
  BasicQuery_Run (fun _ c => Name c) bq fresh_run =
    (Panic "makeslice: len out of range", fresh_run).
Proof.
  intros q bq.
  pose proof (Run_without_calls (fun _ c => Name c) q bq fresh_run)
    as (Hq & _ & Hbq).
  split; [by apply Hq|]. apply Hbq; [by eexists|simpl; lia].
Defined.

Lemma arg_locs_snoc (bms : list (option Call)) c l :
  Args c = Some l -> arg_locs (bms ++ [Some c]) = arg_locs bms ++ [l].
Proof. intros Hl. unfold arg_locs. rewrite omap_app. cbn. by rewrite Hl. Qed.

(** X14: the loop of [BasicQuery.Run] that moves the children to the next
    row: it sets "rowID" to the new value in the argument map of every
    child, keeps the other keys of these maps (the frame), and leaves
    every other map, the clock and the client as they are. *)
Theorem BasicQuery_Run_sets_rowIDs (bms : list (option Call)) (v : Z)
    (st : RunSt) :
  Forall has_args bms ->
  exists st',
    for_loop (length bms) 0 (set_rowID bms v) tt st = (Ok tt, st') /\
    same_client_state st st' /\
    forall l,
      run_heap st' !! l =
      if decide (l ∈ arg_locs bms)
      then Some (<["rowID" := VInt64 v]> (entries (run_heap st) (Some l)))
      else run_heap st !! l.
Proof.
  intros Hbms.
  assert (returns (for_loop (length bms) 0 (set_rowID bms v) tt) st
            (fun _ st' =>
               same_client_state st st' /\
               forall l,
                 run_heap st' !! l =
                 if decide (l ∈ arg_locs bms)
                 then Some (<["rowID" := VInt64 v]>
                              (entries (run_heap st) (Some l)))
                 else run_heap st !! l)) as H.
  { unfold returns.
    eapply triple_mono; [| |
      apply (triple_for_loop
               (fun j (_ : unit) st' =>
                  same_client_state st st' /\
                  forall l,
                    run_heap st' !! l =
                    if decide (l ∈ arg_locs (take (Z.to_nat j) bms))
                    then Some (<["rowID" := VInt64 v]>
                                 (entries (run_heap st) (Some l)))
                    else run_heap st !! l)
               (fun _ => False))].
    - intros u st' [Hst' Hheap]. rewrite Z.add_0_l, Nat2Z.id in Hheap.
      by rewrite firstn_all in Hheap.
    - done.
    - split; [done|]. intros l. cbn.
      by rewrite decide_False by apply not_elem_of_nil.
    - intros j [] st1 Hj [Hst1 Hheap].
      destruct (lookup_lt_is_Some_2 bms (Z.to_nat j)) as [p Hp]; [lia|].
      unfold set_rowID. apply triple_bind_intro.
      eapply triple_index; [lia|done|].
      rewrite Forall_forall in Hbms.
      destruct (Hbms p) as (c & lj & -> & Hlj).
      { by eapply list_elem_of_lookup_2. }
      rewrite Hlj. apply triple_on_run_heap. unfold map_assign.
      apply triple_modify. split; [done|]. cbn [run_heap].
      replace (Z.to_nat (j + 1)) with (Datatypes.S (Z.to_nat j)) by lia.
      erewrite take_S_r by done. rewrite (arg_locs_snoc _ _ _ Hlj).
      intros l. destruct (decide (l = lj)) as [->|Hne].
      + rewrite lookup_insert_eq.
        rewrite decide_True
          by (apply elem_of_app; right; by apply list_elem_of_singleton).
        f_equal. unfold entries at 1. rewrite Hheap.
        destruct (decide (lj ∈ arg_locs (take (Z.to_nat j) bms))); cbn.
        * by rewrite insert_insert_eq.
        * done.
      + rewrite lookup_insert_ne by done. rewrite Hheap.
        destruct (decide (l ∈ arg_locs (take (Z.to_nat j) bms))).
        * by rewrite decide_True by (apply elem_of_app; by left).
        * rewrite decide_False; [done|].
          rewrite not_elem_of_app, list_elem_of_singleton. done. }
  unfold returns, triple in H.
  destruct (for_loop _ _ _ _ _) as [[[]|e] st']; [|done].
  by exists st'.
Qed.

Lemma BasicQuery_Run_sets_rowIDs_witness :
  let h : Heap := {[ 1%positive := {[ "frame" := VString "fbench" ]};
                     2%positive := {[ "frame" := VString "other" ]} ]} in
  let bms := [Some (mkCall "Bitmap" (Some 1%positive) [])] in
  let st := mkRunSt 0 0 [] h in
  exists st',
    for_loop (length bms) 0 (set_rowID bms 17) tt st = (Ok tt, st') /\
    same_client_state st st' /\
    forall l,
      run_heap st' !! l =
      if decide (l ∈ arg_locs bms)
      then Some (<["rowID" := VInt64 17]> (entries (run_heap st) (Some l)))
      else run_heap st !! l.
Proof.
  intros h bms st.
  apply (BasicQuery_Run_sets_rowIDs bms 17 st).
  repeat constructor. by eexists _, _.
Defined.

(** X15: [BasicQuery.Init] gives the agents disjoint windows of row ids:
    an agent's rows are [BaseRowID], ..., [BaseRowID + Iterations - 1],
    and for two agents [a1 < a2] started from the same configuration the
    window of [a1] ends before that of [a2] begins, whatever
    [HasClient.Init] does; the number of iterations is kept.  The windows
    must fit an [int64]. *)
Theorem BasicQuery_Init_windows
    (HasClient_Init :
       option Client -> list string -> Z -> option Client * option string)
    (b : BasicQuery) (hosts : list string) (a1 a2 : Z) :
  0 <= a1 < a2 -> 0 <= BasicQuery_Iterations b ->
  in_int64 (BaseRowID b) ->
  BasicQuery_Iterations b * (a2 + 1) < 2^63 ->
  BaseRowID b + BasicQuery_Iterations b * (a2 + 1) < 2^63 ->
  let b1 := (BasicQuery_Init HasClient_Init b hosts a1).1 in
  let b2 := (BasicQuery_Init HasClient_Init b hosts a2).1 in
  BaseRowID b1 = BaseRowID b + a1 * BasicQuery_Iterations b /\
  BaseRowID b2 = BaseRowID b + a2 * BasicQuery_Iterations b /\
  BaseRowID b1 + BasicQuery_Iterations b1 <= BaseRowID b2 /\
  BasicQuery_Iterations b1 = BasicQuery_Iterations b /\
  BasicQuery_Iterations b2 = BasicQuery_Iterations b.
Proof.
  intros Ha Hit Hb Hw Hfit. cbv zeta. unfold BasicQuery_Init.
  cbn [fst BaseRowID BasicQuery_Iterations]. unfold add64, mul64, in_int64 in *.
  assert (0 <= a1 * BasicQuery_Iterations b
            <= BasicQuery_Iterations b * (a2 + 1)) by nia.
  assert (0 <= a2 * BasicQuery_Iterations b
            <= BasicQuery_Iterations b * (a2 + 1)) by nia.
  rewrite (wrap64_id (a1 * _)) by (unfold in_int64; lia).
  rewrite (wrap64_id (a2 * _)) by (unfold in_int64; lia).
  rewrite !wrap64_id by (unfold in_int64; lia).
  repeat split; try done. nia.
Qed.

Lemma BasicQuery_Init_windows_witness :
  let init := fun (c : option Client) (_ : list string) (_ : Z) =>
                (c, @None string) in
  let b := mkBasicQuery None "" 1000 50 2 "Union" "benchindex" "fbench" in
  let b1 := (BasicQuery_Init init b ["h"] 1).1 in
  let b2 := (BasicQuery_Init init b ["h"] 3).1 in
  BaseRowID b1 = 1000 + 1 * 50 /\
  BaseRowID b2 = 1000 + 3 * 50 /\
  BaseRowID b1 + BasicQuery_Iterations b1 <= BaseRowID b2 /\
  BasicQuery_Iterations b1 = 50 /\
  BasicQuery_Iterations b2 = 50.
Proof.
  intros init b.
  apply (BasicQuery_Init_windows init b ["h"] 1 3);
    unfold in_int64; simpl; lia.
Defined.

(** ** The trees that the generator builds *)

Lemma heap_extends_refl (h : Heap) : heap_extends h h.
Proof. by intros l _. Qed.

Lemma heap_extends_trans (h1 h2 h3 : Heap) :
  heap_extends h1 h2 -> heap_extends h2 h3 -> heap_extends h1 h3.
Proof.
  intros H12 H23 l Hl. rewrite H23, H12; [done|done|].
  by rewrite H12.
Qed.

Lemma heap_extends_insert (h : Heap) l m :
  h !! l = None -> heap_extends h (<[l := m]> h).
Proof.
  intros Hl l' [x Hl']. apply lookup_insert_ne. congruence.
Qed.

Lemma grows_refl {S} (st : GenWorld S) : grows st st.
Proof. split; [apply heap_extends_refl|done]. Qed.

Lemma grows_trans {S} (st1 st2 st3 : GenWorld S) :
  grows st1 st2 -> grows st2 st3 -> grows st1 st3.
Proof.
  intros (H1 & F1 & G1) (H2 & F2 & G2).
  split; [by eapply heap_extends_trans|]. split; congruence.
Qed.

Lemma child_tree_grows {S} idmin idmax frameOf k (st st' : GenWorld S) p :
  grows st st' ->
  child_tree idmin idmax frameOf k st p ->
  child_tree idmin idmax frameOf k st' p.
Proof.
  intros [Hext _] (c & -> & Hh & Htree). exists c. split; [done|].
  split; [done|]. intros Hvalid h' Hh'. apply Htree; [done|].
  by eapply heap_extends_trans.
Qed.

Lemma child_tree_height {S} idmin idmax frameOf k (st : GenWorld S) ps :
  Forall (child_tree idmin idmax frameOf k st) ps ->
  (foldr (fun p acc =>
            Nat.max match p with
                    | Some c' => call_height c'
                    | None => O
                    end acc) O ps <= k)%nat.
Proof.
  induction 1 as [|p ps (c & -> & Hc & _) _ IH]; cbn; lia.
Qed.

Lemma child_tree_all {S} idmin idmax frameOf k (st : GenWorld S) ps h' :
  valid_ids idmin idmax -> heap_extends (heap st) h' ->
  Forall (child_tree idmin idmax frameOf k st) ps ->
  foldr (fun p acc =>
           match p with
           | Some c' => bitmap_tree idmin idmax frameOf h' c'
           | None => False
           end /\ acc) True ps.
Proof.
  intros Hvalid Hh'.
  induction 1 as [|p ps (c & -> & _ & Hc) _ IH]; cbn; [done|].
  split; [by apply Hc|done].
Qed.

Section GeneratedTrees.
Context {S : Type} `{!Source S} {rt : Runtime}.

Lemma grows_set_R (st : GenWorld S) (r : S) :
  grows st
    (mkGenWorld (mkQueryGenerator (IDToFrameFn (gen st)) r (Frames (gen st)))
       (heap st)).
Proof. split; [apply heap_extends_refl|done]. Qed.

(** The leaf, with the heap it leaves. *)
Lemma RandomBitmapCall_leaf_grows idmin idmax (st : GenWorld S) :
  triple (RandomBitmapCall_leaf idmin idmax) st
    (fun p st' =>
       grows st st' /\
       child_tree idmin idmax (IDToFrameFn (gen st)) 1 st' p)
    (fun st' => grows st st').
Proof.
  unfold RandomBitmapCall_leaf. fold (id_width idmin idmax).
  apply triple_bind_intro. apply triple_on_R.
  destruct (Z.leb_spec (id_width idmin idmax) 0) as [Hle|Hgt].
  - apply triple_Int63n_panic; [done|]. apply grows_set_R.
  - apply triple_Int63n; [done|]. intros r s' Hr.
    unfold triple, bind, gets, on_heap, zoom, Bitmap, new_map, ret.
    cbn [heap gen IDToFrameFn Frames].
    assert (heap st !! fresh (dom (heap st)) = None) as Hfresh.
    { apply not_elem_of_dom, is_fresh. }
    split.
    { split; [by apply heap_extends_insert|done]. }
    eexists. split; [done|]. split; [cbn; lia|].
    intros (Hmin & Hmax & Hlt & Hw) h' Hh'. cbn [bitmap_tree heap] in *.
    unfold heap_extends in Hh'.
    change (String.eqb "Bitmap" "Bitmap") with true. cbv iota.
    split; [done|]. eexists _, _, _. split; [done|].
    split.
    { rewrite Hh' by (rewrite lookup_insert_eq; by eexists).
      apply lookup_insert_eq. }
    rewrite id_width_small in Hr by lia.
    split; [done|]. split; [by apply rowID_in_range|].
    by rewrite lookup_insert_ne.
Qed.

(** Every call of [RandomBitmapCall]: whatever the outcome, the
    generator has only allocated; and what it returns is a tree of at
    most [d + 1] levels that, on valid id ranges, is a bitmap query. *)
Lemma RandomBitmapCall_from_tree d maxargs idmin idmax :
  forall st : GenWorld S,
    triple (RandomBitmapCall_from d maxargs idmin idmax) st
      (fun p st' =>
         grows st st' /\
         child_tree idmin idmax (IDToFrameFn (gen st)) (Datatypes.S d) st' p)
      (fun st' => grows st st').
Proof.
  assert (forall k (st0 st : GenWorld S),
            grows st0 st ->
            triple (RandomBitmapCall_leaf idmin idmax) st
              (fun p st' =>
                 grows st0 st' /\
                 child_tree idmin idmax (IDToFrameFn (gen st0))
                   (Datatypes.S k) st' p)
              (fun st' => grows st0 st')) as Hleaf.
  { intros k st0 st Hg.
    eapply triple_mono; [| |apply RandomBitmapCall_leaf_grows].
    - intros p st' (Hg' & c & -> & Hh & Htree).
      split; [by eapply grows_trans|]. exists c. split; [done|].
      split; [lia|]. destruct Hg as (_ & <- & _). done.
    - intros st' Hg'. by eapply grows_trans. }
  induction d as [|d IH]; intros st; [apply Hleaf, grows_refl|].
  cbn [RandomBitmapCall_from].
  apply triple_bind_intro. apply triple_on_R. apply triple_Intn; [lia|].
  intros call r1 Hcall.
  pose proof (grows_set_R st r1) as Hg1. revert Hg1.
  generalize (mkGenWorld
                (mkQueryGenerator (IDToFrameFn (gen st)) r1 (Frames (gen st)))
                (heap st)).
  intros st1 Hg1.
  destruct (Z.eqb_spec call 0) as [->|Hne]; [by apply Hleaf|].
  apply triple_bind_intro.
  apply (triple_mono _ _
           (fun numargs (st2 : GenWorld S) => 0 <= numargs /\ grows st st2)
           _ (fun st2 => grows st st2)); [|done|].
  2:{ destruct (Z.leb_spec maxargs 2).
      - apply triple_ret. split; [lia|done].
      - apply triple_bind_intro. apply triple_on_R. apply triple_Intn; [lia|].
        intros r r2 Hr. apply triple_ret. split; [lia|].
        eapply grows_trans; [exact Hg1|apply grows_set_R]. }
  intros numargs st2 [Hn Hg2].
  apply triple_bind_intro. apply triple_make_slice_any; [done|]. intros _.
  apply triple_bind_intro.
  eapply triple_mono; [| |
    apply (triple_for_loop
             (fun j (calls : list (option Call)) (st3 : GenWorld S) =>
                grows st st3 /\
                length calls = Z.to_nat numargs /\
                Forall (child_tree idmin idmax (IDToFrameFn (gen st))
                          (Datatypes.S d) st3)
                       (take (Z.to_nat j) calls))
             (fun st3 => grows st st3))].
  - intros calls st3 (Hg3 & Hlen & HF). cbv beta.
    rewrite Z.add_0_l, Nat2Z.id in HF. rewrite take_ge in HF by lia.
    assert (forall name,
              String.eqb name "Bitmap" = false -> is_set_op name = true ->
              grows st st3 /\
              child_tree idmin idmax (IDToFrameFn (gen st))
                (Datatypes.S (Datatypes.S d)) st3
                (Some (mkCall name None calls))) as Hnode.
    { intros name Hnb Hop. split; [done|]. eexists. split; [done|].
      split.
      - cbn [call_height]. apply le_n_S. by eapply child_tree_height.
      - intros Hvalid h' Hh'. cbn [bitmap_tree]. rewrite Hnb.
        split; [done|]. split; [done|]. by eapply child_tree_all. }
    destruct (Z.eqb_spec call 1); [by apply triple_ret, Hnode|].
    destruct (Z.eqb_spec call 2); [by apply triple_ret, Hnode|].
    destruct (Z.eqb_spec call 3); [by apply triple_ret, Hnode|].
    lia.
  - done.
  - split; [done|]. split; [by rewrite length_replicate|].
    simpl. constructor.
  - intros j calls st3 Hj (Hg3 & Hlen & HF).
    apply triple_bind_intro.
    eapply triple_mono; [| |apply IH].
    + intros p st4 [Hg4 Hp]. cbv beta.
      apply triple_set_index; [lia|].
      split; [by eapply grows_trans|].
      split; [by rewrite length_insert|].
      replace (Z.to_nat (j + 1)) with (Datatypes.S (Z.to_nat j)) by lia.
      erewrite take_S_r by (apply list_lookup_insert_eq; lia).
      rewrite take_insert_ge by lia.
      apply Forall_app. split.
      * eapply Forall_impl; [exact HF|]. intros q Hq.
        by eapply child_tree_grows.
      * apply Forall_singleton. destruct Hg3 as (_ & <- & _). done.
    + intros st4 Hg4. by eapply grows_trans.
Qed.

End GeneratedTrees.

Lemma triple_conj {St A} (m : M St A) s (Q1 Q2 : A -> St -> Prop)
    (E1 E2 : St -> Prop) :
  triple m s Q1 E1 -> triple m s Q2 E2 ->
  triple m s (fun a s' => Q1 a s' /\ Q2 a s') (fun s' => E1 s' /\ E2 s').
Proof. unfold triple. by destruct (m s) as [[a|e] s']. Qed.

Section GeneratedTreeTheorems.
Context {S : Type} `{!Source S} {rt : Runtime}.


(** X17: the depth bounds the tree: a tree that [RandomBitmapCall]
    returns has at most [depth] levels, and one level when [depth] is
    below 1. *)
Theorem RandomBitmapCall_height depth maxargs idmin idmax (st : GenWorld S)
    c st' :
  RandomBitmapCall depth maxargs idmin idmax st = (Ok (Some c), st') ->
  Z.of_nat (call_height c) <= Z.max 1 depth.
Proof.
  intros Hrun.
  pose proof (RandomBitmapCall_from_tree (Z.to_nat (depth - 1)) maxargs idmin
                idmax st) as Htree.
  apply (triple_eq _ _ _ _ _ _ Hrun) in Htree.
  destruct Htree as (_ & c' & [= <-] & Hh & _). lia.
Qed.

(** [RandomTopN], outcome by outcome. *)
Lemma RandomTopN_triple maxN depth maxargs idmin idmax (st : GenWorld S) :
  triple (RandomTopN maxN depth maxargs idmin idmax) st
    (fun p st' =>
       grows st st' /\
       exists l m r f child,
         p = Some (mkCall "TopN" (Some l) [child]) /\
         heap st' !! l = Some m /\
         m !! "frame" = Some (VString f) /\ f ∈ Frames (gen st) /\
         m !! "n" = Some (VUint64 (wrapU64 (add64 r 1))) /\
         0 <= r < sub64 maxN 1 /\
         child_ok maxargs child /\
         child_tree idmin idmax (IDToFrameFn (gen st))
           (Datatypes.S (Z.to_nat (depth - 1))) st' child)
    (fun st' =>
       grows st st' /\
       (Frames (gen st) = [] \/ sub64 maxN 1 <= 0
        \/ id_width idmin idmax <= 0 \/ maxSliceLen < maxargs - 1)).
Proof.
  unfold RandomTopN. apply triple_bind_intro. apply triple_gets.
  apply triple_bind_intro. apply triple_on_R.
  destruct (Frames (gen st)) as [|f0 fs] eqn:Hfs.
  { unfold triple, Intn. cbn. split; [|by left].
    rewrite <- Hfs. apply grows_set_R. }
  apply triple_Intn; [cbn [length]; lia|]. intros frameIdx r1 Hidx.
  destruct (lookup_lt_is_Some_2 (f0 :: fs) (Z.to_nat frameIdx)) as [f Hf];
    [lia|].
  rewrite <- Hfs in *.
  pose proof (grows_set_R st r1) as Hg1. revert Hg1.
  generalize (mkGenWorld
                (mkQueryGenerator (IDToFrameFn (gen st)) r1 (Frames (gen st)))
                (heap st)).
  intros st1 Hg1.
  apply triple_bind_intro. eapply triple_index; [lia|done|].
  apply triple_bind_intro. apply triple_on_R.
  destruct (Z.leb_spec (sub64 maxN 1) 0) as [Hle|Hgt].
  { unfold triple, Intn. destruct (Z.leb_spec (sub64 maxN 1) 0); [|lia].
    cbn. split; [|by right; left].
    eapply grows_trans; [exact Hg1|apply grows_set_R]. }
  apply triple_Intn; [done|]. intros r r2 Hr.
  pose proof (grows_set_R st1 r2) as Hg2. revert Hg2.
  generalize (mkGenWorld
                (mkQueryGenerator (IDToFrameFn (gen st1)) r2
                   (Frames (gen st1)))
                (heap st1)).
  intros st2 Hg2.
  apply triple_bind_intro. unfold on_heap. apply triple_zoom.
  unfold triple at 1. unfold new_map.
  set (l := fresh (dom (heap st2))).
  set (m := ({[ "frame" := VString f;
                "n" := VUint64 (wrapU64 (add64 r 1)) ]} : gmap string Value)).
  set (st3 := mkGenWorld (gen st2) (<[l := m]> (heap st2))).
  assert (grows st2 st3) as Hg3.
  { split; [|done]. apply heap_extends_insert.
    apply not_elem_of_dom, is_fresh. }
  assert (grows st st3) as Hg03.
  { eapply grows_trans; [exact Hg1|]. by eapply grows_trans. }
  apply triple_bind_intro.
  eapply triple_mono; [| |
    apply (triple_conj _ _ _ _ _ _
             (RandomBitmapCall_from_triple (Z.to_nat (depth - 1)) maxargs
                idmin idmax st3)
             (RandomBitmapCall_from_tree (Z.to_nat (depth - 1)) maxargs
                idmin idmax st3))].
  - intros child st4 (Hok & Hg4 & Htree). cbv beta. apply triple_ret.
    split; [by eapply grows_trans|].
    exists l, m, r, f, child. split; [done|].
    split.
    { destruct Hg4 as (Hext & _). rewrite Hext; cbn [heap st3].
      - apply lookup_insert_eq.
      - rewrite lookup_insert_eq. by eexists. }
    split; [done|].
    split; [by eapply list_elem_of_lookup_2|].
    split; [unfold m; by rewrite lookup_insert_ne|].
    split; [done|]. split; [done|].
    destruct Hg03 as (_ & <- & _). done.
  - intros st4 [Hw Hg4]. split; [by eapply grows_trans|]. by right; right.
Qed.

End GeneratedTreeTheorems.

Section RandomTheorems.
Context {S : Type} `{!Source S} {rt : Runtime}.


(** X19: [RandomTopN] checks neither the frames nor [maxN]: without a
    frame, or with a [maxN - 1] that is not positive as an [int], it
    panics in [Intn]; the maps of the heap are as before. *)
Theorem RandomTopN_panics maxN depth maxargs idmin idmax (st : GenWorld S) :
  Frames (gen st) = [] \/ sub64 maxN 1 <= 0 ->
  exists msg st',
    RandomTopN maxN depth maxargs idmin idmax st = (Panic msg, st') /\
    heap_extends (heap st) (heap st').
Proof.
  intros Hbad.
  pose proof (RandomTopN_triple maxN depth maxargs idmin idmax st) as H.
  unfold triple in H.
  destruct (RandomTopN maxN depth maxargs idmin idmax st) as [[p|e] st'].
  - destruct H as (_ & l & m & r & f & child & _ & _ & _ & Hin & _ & Hr & _).
    destruct Hbad as [Hfs|Hle]; [|lia].
    rewrite Hfs in Hin. by apply elem_of_nil in Hin.
  - exists e, st'. split; [done|]. by destruct H as [[? _] _].
Qed.

(** [Random], outcome by outcome. *)
Lemma Random_triple maxN depth maxargs idmin idmax (st : GenWorld S) :
  triple (Random maxN depth maxargs idmin idmax) st
    (fun p st' =>
       grows st st' /\
       exists c,
         p = Some c /\ fanout_ok maxargs c = true /\
         (valid_ids idmin idmax ->
          bitmap_tree idmin idmax (IDToFrameFn (gen st)) (heap st') c \/
          exists l child,
            c = mkCall "TopN" (Some l) [Some child] /\
            is_Some (heap st' !! l) /\
            bitmap_tree idmin idmax (IDToFrameFn (gen st)) (heap st') child))
    (fun st' =>
       grows st st' /\
       (Frames (gen st) = [] \/ sub64 maxN 1 <= 0
        \/ id_width idmin idmax <= 0 \/ maxSliceLen < maxargs - 1)).
Proof.
  unfold Random. apply triple_bind_intro. apply triple_on_R.
  apply triple_Intn; [lia|]. intros val r1 Hval.
  pose proof (grows_set_R st r1) as Hg1. revert Hg1.
  generalize (mkGenWorld
                (mkQueryGenerator (IDToFrameFn (gen st)) r1 (Frames (gen st)))
                (heap st)).
  intros st1 Hg1.
  pose proof Hg1 as (_ & HF & HFr).
  destruct (Z.eqb_spec val 0) as [->|Hne].
  - eapply triple_mono; [| |apply RandomTopN_triple].
    + intros p st' (Hg & l & m & r & f & child & -> & Hl & _ & _ & _ & _
                    & (c & -> & Hfan) & (c' & [= <-] & _ & Htree)).
      split; [by eapply grows_trans|]. eexists. split; [done|].
      split.
      { cbn [fanout_ok]. change (is_set_op "TopN") with false.
        cbn [negb orb andb forallb]. by rewrite Hfan. }
      intros Hvalid. right. exists l, c. split; [done|].
      split; [by eexists|]. rewrite <- HF.
      apply Htree; [done|apply heap_extends_refl].
    + intros st' [Hg Hbad]. split; [by eapply grows_trans|].
      by rewrite <- HFr.
  - eapply triple_mono; [| |
      apply (triple_conj _ _ _ _ _ _
               (RandomBitmapCall_from_triple (Z.to_nat (depth - 1)) maxargs
                  idmin idmax st1)
               (RandomBitmapCall_from_tree (Z.to_nat (depth - 1)) maxargs
                  idmin idmax st1))].
    + intros p st' ((c & -> & Hfan) & Hg & (c' & [= <-] & _ & Htree)).
      split; [by eapply grows_trans|]. exists c. split; [done|].
      split; [done|]. intros Hvalid. left. rewrite <- HF.
      apply Htree; [done|apply heap_extends_refl].
    + intros st' [Hw Hg]. split; [by eapply grows_trans|]. by right; right.
Qed.


(** X21: generating a query only draws numbers and allocates maps:
    whatever [Random], [RandomTopN] and [RandomBitmapCall] return, and
    also when they panic, every map that was in the heap is unchanged,
    and so are the frames and the id-to-frame function of the
    generator. *)
Theorem Random_only_allocates maxN depth maxargs idmin idmax
    (st : GenWorld S) :
  grows st (Random maxN depth maxargs idmin idmax st).2 /\
  grows st (RandomTopN maxN depth maxargs idmin idmax st).2 /\
  grows st (RandomBitmapCall depth maxargs idmin idmax st).2.
Proof.
  split; [|split].
  - pose proof (Random_triple maxN depth maxargs idmin idmax st) as H.
    unfold triple in H.
    destruct (Random _ _ _ _ _ _) as [[p|e] st']; by destruct H.
  - pose proof (RandomTopN_triple maxN depth maxargs idmin idmax st) as H.
    unfold triple in H.
    destruct (RandomTopN _ _ _ _ _ _) as [[p|e] st']; by destruct H.
  - pose proof (RandomBitmapCall_from_tree (Z.to_nat (depth - 1)) maxargs
                  idmin idmax st) as H.
    unfold triple, RandomBitmapCall in *.
    destruct (RandomBitmapCall_from _ _ _ _ _) as [[p|e] st']; [by destruct H|done].
Qed.

End RandomTheorems.


Lemma RandomBitmapCall_height_witness :
  let st := mkGenWorld
              (mkQueryGenerator (fun _ => "fbench") [1; 0; 2; 1; 3; 0; 4]
                 ["fbench"]) ∅ in
  match (RandomBitmapCall (S := list Z) 3 4 10 20 st).1 with
  | Ok (Some c) => Z.of_nat (call_height c) <= Z.max 1 3
  | _ => False
  end.
Proof.
  intros st.
  destruct (RandomBitmapCall (S := list Z) 3 4 10 20 st) as [[[c|]|e] st']
    eqn:Hrun; cbn [fst].
  - exact (RandomBitmapCall_height (S := list Z) 3 4 10 20 st c st' Hrun).
  - vm_compute in Hrun. discriminate.
  - vm_compute in Hrun. discriminate.
Defined.


Lemma RandomTopN_panics_witness :
  let st := mkGenWorld (mkQueryGenerator (fun _ => "fbench") [3; 1; 4] []) ∅ in
  exists msg st',
    RandomTopN (S := list Z) 10 2 3 10 20 st = (Panic msg, st') /\
    heap_extends (heap st) (heap st').
Proof.
  intros st.
  apply (RandomTopN_panics (S := list Z) 10 2 3 10 20 st).
  left. reflexivity.
Defined.


(** ** Int64Slice *)

Lemma swap_Permutation (s : list Z) (i j : nat) x y :
  s !! i = Some x -> s !! j = Some y ->
  <[j := x]> (<[i := y]> s) ≡ₚ s.
Proof.
  intros Hi Hj.
  assert (<[i := y]> s !! j = Some y) as Hj'.
  { destruct (decide (i = j)) as [->|Hne].
    - apply list_lookup_insert_eq. by eapply lookup_lt_Some.
    - by rewrite list_lookup_insert_ne. }
  apply (Permutation_app_inv_r [y]).
  rewrite (insert_snoc_Permutation _ _ x y Hj').
  by apply insert_snoc_Permutation.
Qed.

(** X22: [Swap] and [Less] on valid indices.  [Swap(i, j)] returns a
    permutation of the slice in which the elements at [i] and [j] have
    changed places and every other element has stayed; it turns
    [Less(i, j)] into what [Less(j, i)] was; and swapping again gives the
    slice back. *)
Theorem Int64Slice_Swap_exchanges {St} (s : list Z) (i j : Z) (st : St) :
  0 <= i < Int64Slice_Len s -> 0 <= j < Int64Slice_Len s ->
  exists s',
    Int64Slice_Swap s i j st = (Ok s', st) /\
    s' ≡ₚ s /\
    s' !! Z.to_nat i = s !! Z.to_nat j /\
    s' !! Z.to_nat j = s !! Z.to_nat i /\
    (forall k, k <> Z.to_nat i -> k <> Z.to_nat j -> s' !! k = s !! k) /\
    Int64Slice_Less s' i j st = Int64Slice_Less s j i st /\
    Int64Slice_Swap s' i j st = (Ok s, st).
Proof.
  unfold Int64Slice_Len. intros Hi Hj.
  destruct (lookup_lt_is_Some_2 s (Z.to_nat i)) as [x Hx]; [lia|].
  destruct (lookup_lt_is_Some_2 s (Z.to_nat j)) as [y Hy]; [lia|].
  assert (forall (l : list Z) a b,
            l !! Z.to_nat i = Some a -> l !! Z.to_nat j = Some b ->
            length l = length s ->
            Int64Slice_Swap l i j st =
            (Ok (<[Z.to_nat j := a]> (<[Z.to_nat i := b]> l)), st)) as Hswap.
  { intros l a b Ha Hb Hlen.
    unfold Int64Slice_Swap, bind, index, set_index, ret.
    destruct (Z.ltb_spec j 0); [lia|]. rewrite Hb.
    destruct (Z.ltb_spec i 0); [lia|]. rewrite Ha. cbn.
    destruct (Z.leb_spec (Z.of_nat (length l)) i); [lia|]. cbn.
    rewrite length_insert.
    by destruct (Z.leb_spec (Z.of_nat (length l)) j); [lia|]. }
  set (s' := <[Z.to_nat j := x]> (<[Z.to_nat i := y]> s)).
  assert (s' !! Z.to_nat j = Some x) as Hj'.
  { apply list_lookup_insert_eq. rewrite length_insert. lia. }
  assert (s' !! Z.to_nat i = Some y) as Hi'.
  { unfold s'. destruct (decide (Z.to_nat i = Z.to_nat j)) as [E|Hne].
    - rewrite E in *.
      rewrite list_lookup_insert_eq by (rewrite length_insert; lia).
      congruence.
    - rewrite list_lookup_insert_ne by done.
      apply list_lookup_insert_eq. lia. }
  exists s'. split; [by apply Hswap|].
  split; [by apply swap_Permutation|].
  split; [congruence|]. split; [congruence|].
  split.
  { intros k Hki Hkj. unfold s'. by rewrite !list_lookup_insert_ne. }
  split.
  { unfold Int64Slice_Less, bind, index, ret.
    destruct (Z.ltb_spec i 0); [lia|]. destruct (Z.ltb_spec j 0); [lia|].
    by rewrite Hi', Hj', Hx, Hy. }
  rewrite (Hswap s' y x Hi' Hj') by (unfold s'; by rewrite !length_insert).
  do 2 f_equal. apply list_eq. intros k.
  destruct (decide (k = Z.to_nat j)) as [->|Hkj].
  { rewrite list_lookup_insert_eq by (rewrite length_insert; unfold s';
      rewrite !length_insert; lia). done. }
  rewrite list_lookup_insert_ne by done.
  destruct (decide (k = Z.to_nat i)) as [->|Hki].
  { rewrite list_lookup_insert_eq by (unfold s'; rewrite !length_insert; lia).
    done. }
  rewrite list_lookup_insert_ne by done.
  unfold s'. by rewrite !list_lookup_insert_ne.
Qed.

Lemma Int64Slice_Swap_exchanges_witness :
  exists s',
    Int64Slice_Swap [5; 3; 9] 0 2 tt = (Ok s', tt) /\
    s' ≡ₚ [5; 3; 9] /\
    s' !! Z.to_nat 0 = [5; 3; 9] !! Z.to_nat 2 /\
    s' !! Z.to_nat 2 = [5; 3; 9] !! Z.to_nat 0 /\
    (forall k, k <> Z.to_nat 0 -> k <> Z.to_nat 2 ->
               s' !! k = [5; 3; 9] !! k) /\
    Int64Slice_Less s' 0 2 tt = Int64Slice_Less [5; 3; 9] 2 0 tt /\
    Int64Slice_Swap s' 0 2 tt = (Ok [5; 3; 9], tt).
Proof.
  apply (Int64Slice_Swap_exchanges [5; 3; 9] 0 2 tt);
    unfold Int64Slice_Len; simpl; lia.
Defined.

(** X23: an index outside the slice makes [Less] and [Swap] panic, and
    neither has changed anything then. *)
Theorem Int64Slice_out_of_range {St} (s : list Z) (i j : Z) (st : St) :
  ~ (0 <= i < Int64Slice_Len s /\ 0 <= j < Int64Slice_Len s) ->
  Int64Slice_Less s i j st = (Panic "index out of range", st) /\
  Int64Slice_Swap s i j st = (Panic "index out of range", st).
Proof.
  unfold Int64Slice_Len. intros Hbad.
  assert (forall k, ~ 0 <= k < Z.of_nat (length s) ->
            index (St := St) s k st = (Panic "index out of range", st)) as Hidx.
  { intros k Hk. unfold index. destruct (Z.ltb_spec k 0); [done|].
    by rewrite lookup_ge_None_2 by lia. }
  assert (forall k, 0 <= k < Z.of_nat (length s) ->
            exists x, index (St := St) s k st = (Ok x, st)) as Hok.
  { intros k Hk. unfold index. destruct (Z.ltb_spec k 0); [lia|].
    destruct (lookup_lt_is_Some_2 s (Z.to_nat k)) as [x ->]; [lia|].
    by exists x. }
  unfold Int64Slice_Less, Int64Slice_Swap, bind.
  destruct (decide (0 <= i < Z.of_nat (length s))) as [Hi|Hi];
    destruct (decide (0 <= j < Z.of_nat (length s))) as [Hj|Hj];
    [tauto| | |].
  - destruct (Hok i Hi) as [x ->]. by rewrite (Hidx j Hj).
  - destruct (Hok j Hj) as [y ->]. by rewrite (Hidx i Hi).
  - by rewrite (Hidx i Hi), (Hidx j Hj).
Qed.

Lemma Int64Slice_out_of_range_witness :
  Int64Slice_Less [5; 3; 9] 1 3 tt = (Panic "index out of range", tt) /\
  Int64Slice_Swap [5; 3; 9] 1 3 tt = (Panic "index out of range", tt).
Proof.
  apply (Int64Slice_out_of_range [5; 3; 9] 1 3 tt).
  unfold Int64Slice_Len. simpl. lia.
Defined.

(** ** The constructors *)

(** X24: calls built one after the other never share an argument map:
    [SetBit], [ClearBit] and [Column] each allocate a map of their own,
    which holds what the constructor is given and is untouched by the
    constructors that run after it, like every map allocated before. *)
Theorem constructors_do_not_alias (id col id' col' id'' : Z)
    (frame frame' : string) (h : Heap) :
  exists l1 l2 l3 h',
    (let* a := SetBit id frame col in
     let* b := ClearBit id' frame' col' in
     let* c := Column id'' in
     ret (a, b, c)) h =
    (Ok (Some (mkCall "SetBit" (Some l1) []),
         Some (mkCall "ClearBit" (Some l2) []),
         Some (mkCall "Column" (Some l3) [])), h') /\
    l1 <> l2 /\ l1 <> l3 /\ l2 <> l3 /\
    heap_extends h h' /\
    h' !! l1 = Some {[ "id" := VUint64 id; "frame" := VString frame;
                       "columnID" := VUint64 col ]} /\
    h' !! l2 = Some {[ "id" := VUint64 id'; "frame" := VString frame';
                       "columnID" := VUint64 col' ]} /\
    h' !! l3 = Some {[ "id" := VUint64 id'' ]}.
Proof.
  unfold SetBit, ClearBit, Column, bind, new_map, ret.
  set (l1 := fresh (dom h)).
  set (m1 := ({[ "id" := VUint64 id; "frame" := VString frame;
                 "columnID" := VUint64 col ]} : gmap string Value)).
  set (h1 := <[l1 := m1]> h).
  set (l2 := fresh (dom h1)).
  set (m2 := ({[ "id" := VUint64 id'; "frame" := VString frame';
                 "columnID" := VUint64 col' ]} : gmap string Value)).
  set (h2 := <[l2 := m2]> h1).
  set (l3 := fresh (dom h2)).
  assert (h !! l1 = None) as H1 by apply not_elem_of_dom, is_fresh.
  assert (h1 !! l2 = None) as H2 by apply not_elem_of_dom, is_fresh.
  assert (h2 !! l3 = None) as H3 by apply not_elem_of_dom, is_fresh.
  assert (l1 <> l2) as N12.
  { intros E. rewrite <- E in H2. unfold h1 in H2.
    by rewrite lookup_insert_eq in H2. }
  assert (l2 <> l3) as N23.
  { intros E. rewrite <- E in H3. unfold h2 in H3.
    by rewrite lookup_insert_eq in H3. }
  assert (l1 <> l3) as N13.
  { intros E. rewrite <- E in H3. unfold h2, h1 in H3.
    rewrite lookup_insert_ne in H3 by done.
    by rewrite lookup_insert_eq in H3. }
  exists l1, l2, l3, (<[l3 := {[ "id" := VUint64 id'' ]}]> h2).
  split; [done|]. split; [done|]. split; [done|]. split; [done|].
  split.
  { eapply heap_extends_trans; [by apply heap_extends_insert|].
    eapply heap_extends_trans; by apply heap_extends_insert. }
  split.
  { unfold h2, h1. by rewrite !lookup_insert_ne, lookup_insert_eq by done. }
  split.
  { unfold h2. by rewrite lookup_insert_ne, lookup_insert_eq by done. }
  apply lookup_insert_eq.
Qed.
